(** * RifasCAIv2: ticket reservation and payment settlement

    A shallow embedding of the backend of the raffle application: the
    Mongoose models (Ticket, Raffle, Payment), the payment routes
    (create-and-pay, confirm, reject), the raffle routes (create, update,
    delete) and the cron job of server.js that releases expired
    reservations.

    Collections are lists of documents in natural order; a query filter is
    a boolean predicate on documents.  A handler that runs inside a
    Mongoose transaction is a computation in a state-and-error monad over
    the database, and the transaction wrapper restores the database when
    the body throws. *)

From Stdlib Require Import ZArith List String Bool Lia Arith DecimalString.
Import ListNotations.
Open Scope string_scope.
Open Scope Z_scope.

(** ** Values *)

(** An ObjectId; fresh ones are drawn from a counter kept beside the
    collections. *)
Definition ObjectId := nat.

(** A JavaScript Date, in milliseconds since the epoch. *)
Definition Date := Z.

(** A value of a request body, as far as the handlers look at it. *)
Inductive JsValue :=
| JBool (b : bool)
| JNum (n : Z)
| JStr (s : string).

(** JavaScript truthiness, used by [if (updates.active)]. *)
Definition truthy (v : JsValue) : bool :=
  match v with
  | JBool b => b
  | JNum n => negb (n =? 0)
  | JStr s => negb (s =? "")%string
  end.

(** Mongoose's cast of a value to a Boolean path: [true, 'true', 1, '1',
    'yes'] become true, [false, 'false', 0, '0', 'no'] become false and
    anything else is a cast error. *)
Definition castBoolean (v : JsValue) : option bool :=
  match v with
  | JBool b => Some b
  | JNum n => if n =? 1 then Some true else if n =? 0 then Some false else None
  | JStr s =>
      if ((s =? "true") || (s =? "1") || (s =? "yes"))%string then Some true
      else if ((s =? "false") || (s =? "0") || (s =? "no"))%string then Some false
      else None
  end.

(** Decimal rendering of an integer, as [Array.prototype.join] prints it. *)
Definition string_of_Z (z : Z) : string := NilZero.string_of_int (Z.to_int z).

(** ** Models *)

Module Ticket.
(** models/Ticket.js: [status] is one of the three enum strings. *)
Inductive Status := available | reserved | sold.

Definition Status_eqb (a b : Status) : bool :=
  match a, b with
  | available, available | reserved, reserved | sold, sold => true
  | _, _ => false
  end.

(** A ticket document.  The schema has no [soldAt] path, so the [soldAt]
    that the confirm route sets is dropped by Mongoose's strict mode. *)
Record t := mk {
  ticketNumber : Z;
  raffleId : ObjectId;
  status : Status;
  reservedAt : option Date;
  userId : option ObjectId
}.
End Ticket.

Module Raffle.
(** The Raffle schema, reduced to the paths the engine reads or writes. *)
Record t := mk {
  _id : ObjectId;
  totalTickets : Z;
  soldTickets : Z;
  reservedTickets : Z;
  active : bool
}.
End Raffle.

Module Payment.
Inductive Status := Pending | Confirmed | Rejected.

Definition Status_eqb (a b : Status) : bool :=
  match a, b with
  | Pending, Pending | Confirmed, Confirmed | Rejected, Rejected => true
  | _, _ => false
  end.

(** The Payment schema of the engine: owner, raffle back-reference, the
    snapshot of selected numbers and the status. *)
Record t := mk {
  _id : ObjectId;
  user : ObjectId;
  raffle : ObjectId;
  selectedNumbers : list Z;
  method : string;
  proofOfPayment : string;
  status : Status
}.
End Payment.

Module User.
(** models/User.js is not among the sources; the payment route reads a
    user's [_id] and looks users up by [email], and that is all the
    document keeps here. *)
Record t := mk {
  _id : ObjectId;
  email : string
}.
End User.

(** ** The database *)

Record DB := mkDB {
  users : list User.t;
  raffles : list Raffle.t;
  tickets : list Ticket.t;
  payments : list Payment.t;
  nextId : ObjectId
}.

Definition emptyDB : DB := mkDB [] [] [] [] 1%nat.

(** ** Collection operations (the Mongoose model API) *)

Section Collection.
Context {A : Type}.

(** [Model.find(q)] *)
Definition find (q : A -> bool) (c : list A) : list A := filter q c.

(** [Model.findOne(q)]: the first match in natural order. *)
Fixpoint findOne (q : A -> bool) (c : list A) : option A :=
  match c with
  | [] => None
  | x :: c' => if q x then Some x else findOne q c'
  end.

(** [Model.updateMany(q, u)] *)
Definition updateMany (q : A -> bool) (u : A -> A) (c : list A) : list A :=
  map (fun x => if q x then u x else x) c.

(** [Model.findOneAndUpdate(q, u, {new: true})]: updates the first match
    and returns the updated document, or null when nothing matches. *)
Fixpoint findOneAndUpdate (q : A -> bool) (u : A -> A) (c : list A)
  : option A * list A :=
  match c with
  | [] => (None, [])
  | x :: c' =>
      if q x then (Some (u x), u x :: c')
      else let (r, c'') := findOneAndUpdate q u c' in (r, x :: c'')
  end.

(** [Model.countDocuments(q)] *)
Definition countDocuments (q : A -> bool) (c : list A) : nat :=
  List.length (filter q c).

(** [Model.deleteMany(q)] *)
Definition deleteMany (q : A -> bool) (c : list A) : list A :=
  filter (fun x => negb (q x)) c.

(** [Model.findByIdAndDelete]: removes the first match. *)
Fixpoint deleteOne (q : A -> bool) (c : list A) : list A :=
  match c with
  | [] => []
  | x :: c' => if q x then c' else x :: deleteOne q c'
  end.
End Collection.

(** ** Transactions *)

(** A handler body running in a session: it either throws an [Error] with
    a message or returns a value and the written database. *)
Definition Tx (A : Type) : Type := DB -> string + (A * DB).

Definition ret {A} (a : A) : Tx A := fun db => inr (a, db).

Definition throw {A} (message : string) : Tx A := fun _ => inl message.

Definition bind {A B} (m : Tx A) (k : A -> Tx B) : Tx B :=
  fun db =>
    match m db with
    | inl e => inl e
    | inr (a, db') => k a db'
    end.

Definition get : Tx DB := fun db => inr (db, db).

Declare Scope tx_scope.
Delimit Scope tx_scope with tx.
Notation "x <- m ;; k" := (bind m (fun x => k))
  (at level 61, m at next level, right associativity) : tx_scope.
Notation "m ;;; k" := (bind m (fun _ => k))
  (at level 61, right associativity) : tx_scope.

(** [session.startTransaction(); try { body; commit } catch { abort }]:
    the writes of [body] are kept when it returns and discarded when it
    throws. *)
Definition withTransaction {A} (body : Tx A) (db : DB) : (string + A) * DB :=
  match body db with
  | inl e => (inl e, db)
  | inr (a, db') => (inr a, db')
  end.

(** [new ObjectId()] *)
Definition newObjectId : Tx ObjectId :=
  fun db => inr (nextId db,
                 mkDB (users db) (raffles db) (tickets db) (payments db)
                      (S (nextId db))).

Definition setUsers (f : list User.t -> list User.t) : Tx unit :=
  fun db => inr (tt, mkDB (f (users db)) (raffles db) (tickets db)
                          (payments db) (nextId db)).

Definition setRaffles (f : list Raffle.t -> list Raffle.t) : Tx unit :=
  fun db => inr (tt, mkDB (users db) (f (raffles db)) (tickets db)
                          (payments db) (nextId db)).

Definition setTickets (f : list Ticket.t -> list Ticket.t) : Tx unit :=
  fun db => inr (tt, mkDB (users db) (raffles db) (f (tickets db))
                          (payments db) (nextId db)).

Definition setPayments (f : list Payment.t -> list Payment.t) : Tx unit :=
  fun db => inr (tt, mkDB (users db) (raffles db) (tickets db)
                          (f (payments db)) (nextId db)).

(** What a route answers: the HTTP status and the [message] of the JSON
    body. *)
Record Response := mkResponse {
  statusCode : nat;
  message : string
}.

(** [document.save()] of a loaded document: the stored document with the
    same [_id] is replaced. *)
Definition updateOne {A} (q : A -> bool) (u : A -> A) (c : list A) : list A :=
  snd (findOneAndUpdate q u c).

(** ** routes/payments.js *)

Module PayReq.
(** The validated body of POST /create-and-pay.  [selectedNumbers] is the
    outcome of [JSON.parse] followed by [Array.isArray]: [None] when the
    string does not parse to an array; the elements are integers.
    [file] is [req.file]. *)
Record t := mk {
  email : string;
  selectedNumbers : option (list Z);
  method : string;
  file : option string
}.
End PayReq.

(** The filter of the reservation: this number, available, in this raffle. *)
Definition claimable (ticketNumber : Z) (raffleId : ObjectId) (t : Ticket.t)
  : bool :=
  (Ticket.ticketNumber t =? ticketNumber)
  && Ticket.Status_eqb (Ticket.status t) Ticket.available
  && (Ticket.raffleId t =? raffleId)%nat.

(** [$set: {status: 'reserved', reservedAt: new Date(), userId: user._id}] *)
Definition setReserved (now : Date) (userId : ObjectId) (t : Ticket.t)
  : Ticket.t :=
  Ticket.mk (Ticket.ticketNumber t) (Ticket.raffleId t) Ticket.reserved
            (Some now) (Some userId).

Definition Ticket_findOneAndUpdate (q : Ticket.t -> bool)
    (u : Ticket.t -> Ticket.t) : Tx (option Ticket.t) :=
  fun db =>
    let (ticket, ts) := findOneAndUpdate q u (tickets db) in
    inr (ticket, mkDB (users db) (raffles db) ts (payments db) (nextId db)).

(** The reservation loop: one conditional claim per requested number; the
    numbers whose claim found no document are collected in order. *)
Fixpoint reserveTickets (now : Date) (userId raffleId : ObjectId)
    (tickets : list Z) : Tx (list Z) :=
  match tickets with
  | [] => ret []
  | ticketNumber :: rest =>
      (ticket <- Ticket_findOneAndUpdate (claimable ticketNumber raffleId)
                                         (setReserved now userId);;
       unavailableTickets <- reserveTickets now userId raffleId rest;;
       ret (match ticket with
            | None => ticketNumber :: unavailableTickets
            | Some _ => unavailableTickets
            end))%tx
  end.

(** The enum of the [method] path of the Payment schema. *)
Definition validMethod (m : string) : bool :=
  ((m =? "Binance Pay") || (m =? "Pagomovil") || (m =? "Zelle"))%string.

(** Schema validation run by [payment.save()]: [method] is in the enum and
    the required string [proofOfPayment] is not empty. *)
Definition validPayment (p : Payment.t) : bool :=
  validMethod (Payment.method p)
  && negb (Payment.proofOfPayment p =? "")%string.

Definition unavailableMessage (unavailableTickets : list Z) : string :=
  "Tickets not available: "
  ++ String.concat ", " (map string_of_Z unavailableTickets).

(** The body of the try block of POST /create-and-pay; it returns the id of
    the payment it created. *)
Definition createAndPayBody (now : Date) (req : PayReq.t) : Tx ObjectId :=
  (db <- get;;
   match findOne (fun u => (User.email u =? PayReq.email req)%string)
                 (users db) with
   | Some _ => throw "User with this email already exists"
   | None =>
   match findOne Raffle.active (raffles db) with
   | None => throw "No active raffle found"
   | Some activeRaffle =>
       userId <- newObjectId;;
       setUsers (fun us => (us ++ [User.mk userId (PayReq.email req)])%list);;;
       match PayReq.selectedNumbers req with
       | None => throw "Invalid selectedNumbers format"
       | Some tickets =>
           unavailableTickets <-
             reserveTickets now userId (Raffle._id activeRaffle) tickets;;
           if (0 <? List.length unavailableTickets)%nat
           then throw (unavailableMessage unavailableTickets)
           else
             paymentId <- newObjectId;;
             let payment :=
               Payment.mk paymentId userId (Raffle._id activeRaffle) tickets
                 (PayReq.method req)
                 (match PayReq.file req with
                  | Some filename => "/uploads/proofs/" ++ filename
                  | None => ""
                  end)
                 Payment.Pending in
             if negb (validPayment payment)
             then throw "Payment validation failed"
             else
               setPayments (fun ps => (ps ++ [payment])%list);;;
               setRaffles
                 (updateOne
                    (fun r => (Raffle._id r =? Raffle._id activeRaffle)%nat)
                    (fun r =>
                       Raffle.mk (Raffle._id r) (Raffle.totalTickets r)
                         (Raffle.soldTickets r)
                         (Raffle.reservedTickets activeRaffle
                          + Z.of_nat (List.length tickets))
                         (Raffle.active r)));;;
               ret paymentId
       end
   end
   end)%tx.

(** POST /create-and-pay *)
Definition createAndPay (now : Date) (req : PayReq.t) (db : DB)
  : Response * DB :=
  match withTransaction (createAndPayBody now req) db with
  | (inr _, db') =>
      (mkResponse 201 "Account created and payment submitted successfully",
       db')
  | (inl e, db') => (mkResponse 400 e, db')
  end.

(** [ticketNumber: {$in: numbers}, status: 'reserved'], the filter of both
    the confirm and the reject route. *)
Definition reservedAmong (numbers : list Z) (t : Ticket.t) : bool :=
  existsb (Z.eqb (Ticket.ticketNumber t)) numbers
  && Ticket.Status_eqb (Ticket.status t) Ticket.reserved.

(** [$set: {status: 'sold'}] *)
Definition setSold (t : Ticket.t) : Ticket.t :=
  Ticket.mk (Ticket.ticketNumber t) (Ticket.raffleId t) Ticket.sold
            (Ticket.reservedAt t) (Ticket.userId t).

(** [$set: {status: 'available', userId: null, reservedAt: null}] *)
Definition setAvailable (t : Ticket.t) : Ticket.t :=
  Ticket.mk (Ticket.ticketNumber t) (Ticket.raffleId t) Ticket.available
            None None.

Definition setPaymentStatus (s : Payment.Status) (p : Payment.t) : Payment.t :=
  Payment.mk (Payment._id p) (Payment.user p) (Payment.raffle p)
             (Payment.selectedNumbers p) (Payment.method p)
             (Payment.proofOfPayment p) s.

Definition Payment_findById (id : ObjectId) (db : DB) : option Payment.t :=
  findOne (fun p => (Payment._id p =? id)%nat) (payments db).

Definition Raffle_findById (id : ObjectId) (db : DB) : option Raffle.t :=
  findOne (fun r => (Raffle._id r =? id)%nat) (raffles db).

(** The body of the try block of POST /:id/confirm. *)
Definition confirmBody (id : ObjectId) : Tx unit :=
  (db <- get;;
   match Payment_findById id db with
   | None => throw "Payment not found"
   | Some payment =>
       if negb (Payment.Status_eqb (Payment.status payment) Payment.Pending)
       then throw "Payment is not in pending status"
       else
         setPayments
           (updateOne (fun p => (Payment._id p =? Payment._id payment)%nat)
                      (setPaymentStatus Payment.Confirmed));;;
         setTickets
           (updateMany (reservedAmong (Payment.selectedNumbers payment))
                       setSold);;;
         db' <- get;;
         match Raffle_findById (Payment.raffle payment) db' with
         | Some raffle =>
             let n := Z.of_nat (List.length (Payment.selectedNumbers payment)) in
             setRaffles
               (updateOne (fun r => (Raffle._id r =? Raffle._id raffle)%nat)
                  (fun r =>
                     Raffle.mk (Raffle._id r) (Raffle.totalTickets r)
                       (Raffle.soldTickets raffle + n)
                       (Raffle.reservedTickets raffle - n)
                       (Raffle.active r)))
         | None => ret tt
         end
   end)%tx.

(** POST /:id/confirm *)
Definition confirm (id : ObjectId) (db : DB) : Response * DB :=
  match withTransaction (confirmBody id) db with
  | (inr _, db') => (mkResponse 200 "Payment confirmed successfully", db')
  | (inl e, db') => (mkResponse 400 e, db')
  end.

(** The body of the try block of POST /:id/reject. *)
Definition rejectBody (id : ObjectId) : Tx unit :=
  (db <- get;;
   match Payment_findById id db with
   | None => throw "Payment not found"
   | Some payment =>
       if negb (Payment.Status_eqb (Payment.status payment) Payment.Pending)
       then throw "Payment is not in pending status"
       else
         let raffleId := Payment.raffle payment in
         setPayments
           (updateOne (fun p => (Payment._id p =? Payment._id payment)%nat)
                      (setPaymentStatus Payment.Rejected));;;
         setTickets
           (updateMany (reservedAmong (Payment.selectedNumbers payment))
                       setAvailable);;;
         db' <- get;;
         match Raffle_findById raffleId db' with
         | Some raffle =>
             let n := Z.of_nat (List.length (Payment.selectedNumbers payment)) in
             setRaffles
               (updateOne (fun r => (Raffle._id r =? Raffle._id raffle)%nat)
                  (fun r =>
                     Raffle.mk (Raffle._id r) (Raffle.totalTickets r)
                       (Raffle.soldTickets r)
                       (Z.max 0 (Raffle.reservedTickets raffle - n))
                       (Raffle.active r)))
         | None => ret tt
         end
   end)%tx.

(** POST /:id/reject *)
Definition reject (id : ObjectId) (db : DB) : Response * DB :=
  match withTransaction (rejectBody id) db with
  | (inr _, db') => (mkResponse 200 "Payment rejected successfully", db')
  | (inl e, db') => (mkResponse 400 e, db')
  end.

(** ** routes/raffle.js *)

Module CreateReq.
(** The body of POST /create.  [price] and [totalTickets] are the parsed
    numbers ([None] when the field is missing or empty); [file] is
    [req.file]. *)
Record t := mk {
  productName : string;
  description : string;
  price : option Z;
  totalTickets : option Z;
  file : option string
}.
End CreateReq.

(** [Array.from({ length: n }, (_, index) => index + 1)] *)
Definition ticketNumbersUpTo (n : Z) : list Z :=
  map (fun index => Z.of_nat index + 1) (seq 0 (Z.to_nat n)).

Definition setActive (b : bool) (r : Raffle.t) : Raffle.t :=
  Raffle.mk (Raffle._id r) (Raffle.totalTickets r) (Raffle.soldTickets r)
            (Raffle.reservedTickets r) b.

(** The body of the try block of POST /create. *)
Definition createRaffleBody (req : CreateReq.t) : Tx ObjectId :=
  match CreateReq.price req, CreateReq.totalTickets req, CreateReq.file req with
  | Some parsedPrice, Some parsedTotalTickets, Some _ =>
      if ((CreateReq.productName req =? "")
          || (CreateReq.description req =? ""))%string
      then throw "All fields including image are required"
      else if parsedPrice <=? 0
      then throw "Price must be a positive number"
      else if parsedTotalTickets <=? 0
      then throw "Total tickets must be a positive number"
      else
        (setRaffles (updateMany (fun _ => true) (setActive false));;;
         raffleId <- newObjectId;;
         setRaffles
           (fun rs => (rs ++ [Raffle.mk raffleId parsedTotalTickets 0 0 true])%list);;;
         setTickets
           (fun ts =>
              (ts ++ map (fun n => Ticket.mk n raffleId Ticket.available
                                             None None)
                         (ticketNumbersUpTo parsedTotalTickets))%list);;;
         ret raffleId)%tx
  | _, _, _ => throw "All fields including image are required"
  end.

(** POST /create *)
Definition createRaffle (req : CreateReq.t) (db : DB) : Response * DB :=
  match withTransaction (createRaffleBody req) db with
  | (inr _, db') => (mkResponse 201 "Raffle created successfully", db')
  | (inl _, db') => (mkResponse 500 "Error creating raffle", db')
  end.

Module UpdateReq.
(** The body of PUT /:id, reduced to the [active] field ([None] when it
    is undefined); the other allowed fields are not paths of the reduced
    Raffle document. *)
Record t := mk {
  active : option JsValue
}.
End UpdateReq.

Definition withRaffles (f : list Raffle.t -> list Raffle.t) (db : DB) : DB :=
  mkDB (users db) (f (raffles db)) (tickets db) (payments db) (nextId db).

Definition withTickets (f : list Ticket.t -> list Ticket.t) (db : DB) : DB :=
  mkDB (users db) (raffles db) (f (tickets db)) (payments db) (nextId db).

(** The first write of PUT /:id: when [updates.active] is truthy, every
    other raffle is deactivated. *)
Definition deactivateOthers (raffle : Raffle.t) (req : UpdateReq.t) (db : DB)
  : DB :=
  match UpdateReq.active req with
  | Some v =>
      if truthy v
      then withRaffles
             (updateMany (fun r => negb (Raffle._id r =? Raffle._id raffle)%nat)
                         (setActive false)) db
      else db
  | None => db
  end.

(** PUT /:id.  It runs outside any transaction: when [raffle.save()]
    rejects (the value of [active] does not cast to a Boolean) the
    deactivation of the other raffles stays written. *)
Definition updateRaffle (id : ObjectId) (req : UpdateReq.t) (db : DB)
  : Response * DB :=
  match Raffle_findById id db with
  | None => (mkResponse 404 "Raffle not found", db)
  | Some raffle =>
      let db1 := deactivateOthers raffle req db in
      match UpdateReq.active req with
      | None => (mkResponse 200 "Raffle updated successfully", db1)
      | Some v =>
          match castBoolean v with
          | None => (mkResponse 500 "Error updating raffle", db1)
          | Some b =>
              (mkResponse 200 "Raffle updated successfully",
               withRaffles
                 (updateOne (fun r => (Raffle._id r =? Raffle._id raffle)%nat)
                            (setActive b)) db1)
          end
      end
  end.

(** DELETE /:id *)
Definition deleteRaffle (id : ObjectId) (db : DB) : Response * DB :=
  match Raffle_findById id db with
  | None => (mkResponse 404 "Raffle not found", db)
  | Some raffle =>
      let soldTicketsCount :=
        countDocuments
          (fun t => (Ticket.raffleId t =? Raffle._id raffle)%nat
                    && Ticket.Status_eqb (Ticket.status t) Ticket.sold)
          (tickets db) in
      if (0 <? soldTicketsCount)%nat
      then (mkResponse 400 "Cannot delete raffle with sold tickets", db)
      else
        (mkResponse 200 "Raffle and associated tickets deleted successfully",
         withRaffles (deleteOne (fun r => (Raffle._id r =? id)%nat))
           (withTickets
              (deleteMany
                 (fun t => (Ticket.raffleId t =? Raffle._id raffle)%nat))
              db))
  end.

(** ** server.js: the job that releases expired reservations *)

(** [24 * 60 * 60 * 1000] *)
Definition TTL : Z := 24 * 60 * 60 * 1000.

(** [{status: 'reserved', reservedAt: {$lt: cutoff}}] *)
Definition expiredAt (cutoff : Date) (t : Ticket.t) : bool :=
  Ticket.Status_eqb (Ticket.status t) Ticket.reserved
  && match Ticket.reservedAt t with
     | Some d => d <? cutoff
     | None => false
     end.

(** [Ticket.find] of the job. *)
Definition expiredTickets (now : Date) (db : DB) : list Ticket.t :=
  find (expiredAt (now - TTL)) (tickets db).

(** [Ticket.updateMany({ticketNumber: {$in: ticketNumbers}}, ...)] of the
    job. *)
Definition releaseNumbers (ticketNumbers : list Z) (db : DB) : DB :=
  withTickets
    (updateMany
       (fun t => existsb (Z.eqb (Ticket.ticketNumber t)) ticketNumbers)
       setAvailable)
    db.

(** One run of the [*/5 * * * *] job at time [now]. *)
Definition ticketReleaseJob (now : Date) (db : DB) : DB :=
  let expired := expiredTickets now db in
  if (0 <? List.length expired)%nat
  then releaseNumbers (map Ticket.ticketNumber expired) db
  else db.

(** ** Runs of the server *)

(** One completed operation: a request served to its response, or one run
    of the release job. *)
Inductive Op :=
| CreateAndPay (now : Date) (req : PayReq.t)
| Confirm (id : ObjectId)
| Reject (id : ObjectId)
| CreateRaffle (req : CreateReq.t)
| UpdateRaffle (id : ObjectId) (req : UpdateReq.t)
| DeleteRaffle (id : ObjectId)
| ReleaseJob (now : Date).

Definition exec (op : Op) (db : DB) : DB :=
  match op with
  | CreateAndPay now req => snd (createAndPay now req db)
  | Confirm id => snd (confirm id db)
  | Reject id => snd (reject id db)
  | CreateRaffle req => snd (createRaffle req db)
  | UpdateRaffle id req => snd (updateRaffle id req db)
  | DeleteRaffle id => snd (deleteRaffle id db)
  | ReleaseJob now => ticketReleaseJob now db
  end.

Definition run (ops : list Op) (db : DB) : DB :=
  fold_left (fun db op => exec op db) ops db.

(** The states the server can be in: it starts on an empty database. *)
Inductive reachable : DB -> Prop :=
| reachable_empty : reachable emptyDB
| reachable_exec op db : reachable db -> reachable (exec op db).

(** ** Observations on a database *)

(** The status of the ticket [(raffleId, ticketNumber)], when the raffle
    has such a ticket. *)
Definition statusOf (raffleId : ObjectId) (ticketNumber : Z) (db : DB)
  : option Ticket.Status :=
  option_map Ticket.status
    (findOne (fun t => (Ticket.raffleId t =? raffleId)%nat
                       && (Ticket.ticketNumber t =? ticketNumber))
             (tickets db)).

(** How many tickets of a raffle are in a status. *)
Definition statusCount (s : Ticket.Status) (raffleId : ObjectId) (db : DB)
  : Z :=
  Z.of_nat
    (countDocuments
       (fun t => (Ticket.raffleId t =? raffleId)%nat
                 && Ticket.Status_eqb (Ticket.status t) s)
       (tickets db)).

(** The stored counters of every raffle agree with its ticket documents. *)
Definition countersConsistent (db : DB) : bool :=
  forallb
    (fun r =>
       (Raffle.reservedTickets r
        =? statusCount Ticket.reserved (Raffle._id r) db)
       && (Raffle.soldTickets r =? statusCount Ticket.sold (Raffle._id r) db))
    (raffles db).

(** How many raffles are active. *)
Definition activeCount (db : DB) : nat :=
  countDocuments Raffle.active (raffles db).

(** The stored [reservedTickets] of a raffle. *)
Definition reservedCounter (raffleId : ObjectId) (db : DB) : option Z :=
  option_map Raffle.reservedTickets (Raffle_findById raffleId db).

(** The stored [soldTickets] of a raffle. *)
Definition soldCounter (raffleId : ObjectId) (db : DB) : option Z :=
  option_map Raffle.soldTickets (Raffle_findById raffleId db).

(** The status of a payment. *)
Definition paymentStatus (id : ObjectId) (db : DB) : option Payment.Status :=
  option_map Payment.status (Payment_findById id db).

(** The owner of the ticket [(raffleId, ticketNumber)]. *)
Definition ownerOf (raffleId : ObjectId) (ticketNumber : Z) (db : DB)
  : option ObjectId :=
  match findOne (fun t => (Ticket.raffleId t =? raffleId)%nat
                          && (Ticket.ticketNumber t =? ticketNumber))
                (tickets db) with
  | Some t => Ticket.userId t
  | None => None
  end.

(** The response of the confirm and reject routes to a payment that has
    left the Pending status. *)
Definition notPending : Response :=
  mkResponse 400 "Payment is not in pending status".

(** The reservation loop on the ticket collection alone: the numbers it
    claims, the numbers it reports unavailable, and the collection it
    leaves. *)
Fixpoint claimAll (now : Date) (userId raffleId : ObjectId)
    (numbers : list Z) (ts : list Ticket.t)
  : list Z * list Z * list Ticket.t :=
  match numbers with
  | [] => ([], [], ts)
  | n :: rest =>
      let (ticket, ts1) :=
        findOneAndUpdate (claimable n raffleId) (setReserved now userId) ts in
      let '(claimed, unavailable, ts2) :=
        claimAll now userId raffleId rest ts1 in
      match ticket with
      | Some _ => (n :: claimed, unavailable, ts2)
      | None => (claimed, n :: unavailable, ts2)
      end
  end.

Definition claimedIn (a : list Z * list Z * list Ticket.t) : list Z :=
  fst (fst a).

Definition unavailableIn (a : list Z * list Z * list Ticket.t) : list Z :=
  snd (fst a).

(** Every ticket document carries a number of its raffle's range
    [1 .. totalTickets]. *)
Definition ticketsInRange (db : DB) : Prop :=
  forall t r,
    In t (tickets db) -> In r (raffles db) ->
    Ticket.raffleId t = Raffle._id r ->
    1 <= Ticket.ticketNumber t <= Raffle.totalTickets r.


(** ** Well-formed databases *)

(** What identifies a ticket document: its raffle and its number. *)
Definition ticketKey (t : Ticket.t) : ObjectId * Z :=
  (Ticket.raffleId t, Ticket.ticketNumber t).

(** What is fixed when a raffle is created: its id and its size. *)
Definition raffleShape (r : Raffle.t) : ObjectId * Z :=
  (Raffle._id r, Raffle.totalTickets r).

(** Two databases with the same raffles and tickets up to the mutable
    paths of the engine (status, owner, dates and counters): no document
    was added or removed, and no raffle changed its [active] flag. *)
Definition sameShape (db db' : DB) : Prop :=
  map ticketKey (tickets db') = map ticketKey (tickets db)
  /\ map raffleShape (raffles db') = map raffleShape (raffles db)
  /\ map Raffle.active (raffles db') = map Raffle.active (raffles db)
  /\ (nextId db <= nextId db')%nat.

(** The invariant of the raffle and ticket collections: ids are drawn
    from the counter, a raffle id is used once, at most one raffle is
    active and tickets are numbered within their raffle's range. *)
Record wellFormed (db : DB) : Prop := mkWellFormed {
  wf_raffle_ids :
    forall r, In r (raffles db) -> (Raffle._id r < nextId db)%nat;
  wf_ticket_raffles :
    forall t, In t (tickets db) -> (Ticket.raffleId t < nextId db)%nat;
  wf_raffle_unique : NoDup (map Raffle._id (raffles db));
  wf_one_active : (activeCount db <= 1)%nat;
  wf_in_range : ticketsInRange db
}.

(** ** Concrete requests and runs *)

Definition hour : Z := 60 * 60 * 1000.

(** A well-formed POST /create for a raffle of [n] tickets. *)
Definition raffleOf (n : Z) : CreateReq.t :=
  CreateReq.mk "Car" "A car" (Some 10) (Some n) (Some "car.png").

(** A well-formed POST /create-and-pay of a new buyer. *)
Definition purchase (email : string) (numbers : list Z) : PayReq.t :=
  PayReq.mk email (Some numbers) "Zelle" (Some "proof.png").

(** PUT /:id with [active] set to the form value "true". *)
Definition activate : UpdateReq.t := UpdateReq.mk (Some (JStr "true")).

(** A raffle of three tickets on which buyer a has reserved 1 and 2 at
    time 0; the raffle has id 1, the buyer id 2 and the payment id 3. *)
Definition oneReservation : list Op :=
  [CreateRaffle (raffleOf 3); CreateAndPay 0 (purchase "a@x" [1; 2])].

(** Raffle 1 of five tickets, whose ticket 5 buyer a reserves (payment 3)
    and the admin confirms; then raffle 4 of five tickets, whose ticket 5
    buyer b reserves at time 0 (payment 6). *)
Definition soldThenSecondRaffle : list Op :=
  [CreateRaffle (raffleOf 5);
   CreateAndPay 0 (purchase "a@x" [5]);
   Confirm 3%nat;
   CreateRaffle (raffleOf 5);
   CreateAndPay 0 (purchase "b@x" [5])].

(** After that: the release job runs 25 hours later, the admin activates
    raffle 1 again and buyer c reserves its ticket 5 (payment 8). *)
Definition resoldLater : list Op :=
  [ReleaseJob (25 * hour);
   UpdateRaffle 1%nat activate;
   CreateAndPay (26 * hour) (purchase "c@x" [5])].

(** Raffle 1 and raffle 4, each with its ticket 5 reserved, by buyer a
    (payment 3) and by buyer b (payment 6). *)
Definition twoRafflesReserved : list Op :=
  [CreateRaffle (raffleOf 5);
   CreateAndPay 0 (purchase "a@x" [5]);
   CreateRaffle (raffleOf 5);
   CreateAndPay 0 (purchase "b@x" [5])].

(** One raffle whose ticket 5 buyer a reserved at time 0 (payment 3); the
    reservation expired and was released, and buyer b (user 4, payment 5)
    reserved the ticket an hour later. *)
Definition reservedAgain : list Op :=
  [CreateRaffle (raffleOf 5);
   CreateAndPay 0 (purchase "a@x" [5]);
   ReleaseJob (25 * hour);
   CreateAndPay (26 * hour) (purchase "b@x" [5])].

(** Raffle 1 and raffle 2 of five tickets; buyer b reserves ticket 5 of
    raffle 2 at time 0; the admin activates raffle 1 and buyer c reserves
    its ticket 5 half an hour before the job runs at 25 hours. *)
Definition freshAndStale : list Op :=
  [CreateRaffle (raffleOf 5);
   CreateRaffle (raffleOf 5);
   CreateAndPay 0 (purchase "b@x" [5]);
   UpdateRaffle 1%nat activate;
   CreateAndPay (25 * hour - hour / 2) (purchase "c@x" [5])].


(** ** Further observations *)

(** The raffle and ticket collections agree as an inventory: a ticket key
    occurs once, every raffle has a ticket for each number of its range,
    and it has [totalTickets] tickets in all. *)
Record inventory (db : DB) : Prop := mkInventory {
  inv_keys_unique : NoDup (map ticketKey (tickets db));
  inv_every_number :
    forall r n, In r (raffles db) -> 1 <= n <= Raffle.totalTickets r ->
                In (Raffle._id r, n) (map ticketKey (tickets db));
  inv_ticket_count :
    forall r, In r (raffles db) ->
              Z.of_nat
                (countDocuments
                   (fun t => (Ticket.raffleId t =? Raffle._id r)%nat)
                   (tickets db))
              = Raffle.totalTickets r
}.

(** The filter behind [statusCount]: a ticket of the raffle in the
    status. *)
Definition inStatus (s : Ticket.Status) (raffleId : ObjectId) (t : Ticket.t)
  : bool :=
  (Ticket.raffleId t =? raffleId)%nat
  && Ticket.Status_eqb (Ticket.status t) s.

(** ** GET / of the raffle routes and the raffle card *)





(** ** server.js: the Socket.IO authentication middleware *)

Module SocketAuth.
(** The payload that [jwt.verify] returns for a token of this server:
    [{ userId, isAdmin }]. *)
Record Decoded := mkDecoded {
  userId : ObjectId;
  isAdmin : bool
}.

(** The three places of a handshake where the token is looked for;
    [None] is undefined. *)
Record Handshake := mkHandshake {
  authToken : option string;
  authorization : option string;
  queryToken : option string
}.

(** What the middleware does with a connection: it lets it in, with the
    user it attached to the socket and whether it joined 'admin-room', or
    it refuses it with an error. *)
Inductive Outcome :=
| Accepted (user : option Decoded) (adminRoom : bool)
| Refused (message : string).

(** [a || b]: the first operand when it is truthy. *)
Definition orElse (a b : option string) : option string :=
  match a with
  | Some s => if (s =? "")%string then b else a
  | None => b
  end.

(** [auth.token || headers.authorization || query.token], with a falsy
    result as [None]. *)
Definition token (h : Handshake) : option string :=
  match orElse (orElse (authToken h) (authorization h)) (queryToken h) with
  | Some s => if (s =? "")%string then None else Some s
  | None => None
  end.

(** The middleware; [development] is [NODE_ENV === 'development'] and
    [verify] is [jwt.verify] with the server's secret, [None] when it
    throws. *)
Definition authenticate (development : bool)
    (verify : string -> option Decoded) (h : Handshake) : Outcome :=
  match token h with
  | None =>
      if development then Accepted None false
      else Refused "Authentication error"
  | Some t =>
      match verify t with
      | Some decoded => Accepted (Some decoded) (isAdmin decoded)
      | None =>
          if development then Accepted None false
          else Refused "Invalid token"
      end
  end.
End SocketAuth.

(** ** services/api.js: the request interceptor *)

From Stdlib Require Import Ascii.

Module Api.
Definition authRequiredEndpoints : list string :=
  ["/auth/protected-route";
   "/payments/protected-route";
   "/raffle/create";
   "/raffle/update";
   "/raffle/delete"].

(** [authRequiredEndpoints.some(endpoint => config.url.startsWith(endpoint))] *)
Definition requiresAuth (url : string) : bool :=
  existsb (fun endpoint => String.prefix endpoint url) authRequiredEndpoints.

(** The Authorization header the interceptor sets on a request, if any;
    [token] is [localStorage.getItem('token')]. *)
Definition authorizationHeader (token : option string) (url : string)
  : option string :=
  match token with
  | Some t =>
      if negb (t =? "")%string && requiresAuth url
      then Some ("Bearer " ++ t)
      else None
  | None => None
  end.

(** The URLs of the helpers of the module. *)
Definition getPendingPaymentsUrl : string := "/payments/pending".

Definition confirmPaymentUrl (paymentId : string) : string :=
  "/payments/" ++ paymentId ++ "/confirm".

Definition rejectPaymentUrl (paymentId : string) : string :=
  "/payments/" ++ paymentId ++ "/reject".

Definition createRaffleUrl : string := "/raffle/create".

Definition updateRaffleUrl (raffleId : string) : string :=
  "/raffle/" ++ raffleId.

Definition deleteRaffleUrl (raffleId : string) : string :=
  "/raffle/" ++ raffleId.

(** A character of the hexadecimal string of an ObjectId. *)
Definition isHexDigit (c : Ascii.ascii) : bool :=
  existsb (Ascii.eqb c)
    (list_ascii_of_string "0123456789abcdef").

Fixpoint isHex (s : string) : bool :=
  match s with
  | EmptyString => true
  | String c s' => isHexDigit c && isHex s'
  end.
End Api.
(** ** Lemmas on collections *)

Section CollectionFacts.
Context {A : Type}.
Implicit Types (q : A -> bool) (u : A -> A) (c : list A).

Lemma findOne_some q c x : findOne q c = Some x -> In x c /\ q x = true.
Proof.
  induction c as [|y c IH]; simpl; [discriminate|].
  destruct (q y) eqn:Hy.
  - intros [= ->]. auto.
  - intros H. destruct (IH H). auto.
Qed.

Lemma findOne_none q c : findOne q c = None -> forall x, In x c -> q x = false.
Proof.
  induction c as [|y c IH]; simpl; [contradiction|].
  destruct (q y) eqn:Hy; [discriminate|].
  intros H x [<-|Hx]; auto.
Qed.

Lemma findOne_exists q c x : In x c -> q x = true -> exists y, findOne q c = Some y.
Proof.
  intros Hx Hq. destruct (findOne q c) as [y|] eqn:E; [eauto|].
  rewrite (findOne_none _ _ E x Hx) in Hq. discriminate.
Qed.

Lemma findOne_updateOne q u c x :
  findOne q c = Some x -> q (u x) = true ->
  findOne q (updateOne q u c) = Some (u x).
Proof.
  unfold updateOne. induction c as [|y c IH]; simpl; [discriminate|].
  destruct (q y) eqn:Hy.
  - intros [= ->] Hu. simpl. now rewrite Hu.
  - intros H Hu. specialize (IH H Hu).
    destruct (findOneAndUpdate q u c) as [r c']. simpl in *.
    now rewrite Hy.
Qed.


Lemma findOneAndUpdate_some q u c y :
  fst (findOneAndUpdate q u c) = Some y ->
  exists x, In x c /\ q x = true /\ y = u x.
Proof.
  induction c as [|z c IH]; simpl; [discriminate|].
  destruct (q z) eqn:Hz.
  - simpl. intros [= <-]. eauto.
  - destruct (findOneAndUpdate q u c) as [r c']. simpl in *.
    intros ->. destruct (IH eq_refl) as (x & Hx & Hq & ->). eauto.
Qed.

(** A document of the collection after [findOneAndUpdate] is either an
    untouched document or the update of a matching one. *)
Lemma findOneAndUpdate_In q u c y :
  In y (snd (findOneAndUpdate q u c)) ->
  In y c \/ exists x, In x c /\ q x = true /\ y = u x.
Proof.
  induction c as [|z c IH]; simpl; [auto|].
  destruct (q z) eqn:Hz.
  - simpl. intros [<-|Hy]; [right; exists z; auto|auto].
  - destruct (findOneAndUpdate q u c) as [r c']. simpl in *.
    intros [<-|Hy]; [auto|].
    destruct (IH Hy) as [H|(x & Hx & Hq & ->)]; [auto|].
    right; exists x; auto.
Qed.

Lemma updateMany_In q u c y :
  In y (updateMany q u c) ->
  exists x, In x c /\ y = (if q x then u x else x).
Proof.
  unfold updateMany. rewrite in_map_iff. intros (x & <- & Hx). eauto.
Qed.
End CollectionFacts.

(** ** The payment state machine *)

Lemma Payment_findById_id id db p :
  Payment_findById id db = Some p -> Payment._id p = id.
Proof.
  unfold Payment_findById. intros H.
  apply findOne_some in H. now apply Nat.eqb_eq.
Qed.

(** A payment found in a status other than Pending stops the confirm
    route before any write. *)
Lemma confirm_not_pending id db p :
  Payment_findById id db = Some p ->
  Payment.status p <> Payment.Pending ->
  confirm id db = (notPending, db).
Proof.
  intros Hp Hs. unfold confirm, withTransaction, confirmBody, bind, get.
  rewrite Hp. destruct (Payment.status p); simpl; [congruence | reflexivity | reflexivity].
Qed.

Lemma reject_not_pending id db p :
  Payment_findById id db = Some p ->
  Payment.status p <> Payment.Pending ->
  reject id db = (notPending, db).
Proof.
  intros Hp Hs. unfold reject, withTransaction, rejectBody, bind, get.
  rewrite Hp. destruct (Payment.status p); simpl; [congruence | reflexivity | reflexivity].
Qed.

Lemma confirm_ok_status id db :
  statusCode (fst (confirm id db)) = 200%nat ->
  exists p, Payment_findById id (snd (confirm id db)) = Some p
            /\ Payment.status p = Payment.Confirmed.
Proof.
  unfold confirm, withTransaction, confirmBody, bind, get.
  destruct (Payment_findById id db) as [p|] eqn:Hp; simpl; [|discriminate].
  destruct (Payment.status p) eqn:Hs; simpl; try discriminate.
  intros _. exists (setPaymentStatus Payment.Confirmed p). split; [|reflexivity].
  pose proof (Payment_findById_id _ _ _ Hp) as Hid.
  unfold setPayments, setTickets, setRaffles, Raffle_findById, ret. simpl.
  destruct (findOne _ (raffles db)); simpl;
    unfold Payment_findById; simpl; rewrite Hid;
    apply (findOne_updateOne (fun p0 => (Payment._id p0 =? id)%nat));
    simpl; auto using Nat.eqb_refl; now rewrite Hid, Nat.eqb_refl.
Qed.

Lemma reject_ok_status id db :
  statusCode (fst (reject id db)) = 200%nat ->
  exists p, Payment_findById id (snd (reject id db)) = Some p
            /\ Payment.status p = Payment.Rejected.
Proof.
  unfold reject, withTransaction, rejectBody, bind, get.
  destruct (Payment_findById id db) as [p|] eqn:Hp; simpl; [|discriminate].
  destruct (Payment.status p) eqn:Hs; simpl; try discriminate.
  intros _. exists (setPaymentStatus Payment.Rejected p). split; [|reflexivity].
  pose proof (Payment_findById_id _ _ _ Hp) as Hid.
  unfold setPayments, setTickets, setRaffles, Raffle_findById, ret. simpl.
  destruct (findOne _ (raffles db)); simpl;
    unfold Payment_findById; simpl; rewrite Hid;
    apply (findOne_updateOne (fun p0 => (Payment._id p0 =? id)%nat));
    simpl; auto using Nat.eqb_refl; now rewrite Hid, Nat.eqb_refl.
Qed.

(** C7. Calling Confirm then Reject, or Reject then Confirm, on the same
    payment: when the first call succeeds, the second call answers that the
    payment is not in pending status and leaves the whole database (the
    payment, every ticket, every raffle counter) as the first call left
    it. *)
Theorem terminal_state_immutable id db :
  (statusCode (fst (confirm id db)) = 200%nat ->
   reject id (snd (confirm id db)) = (notPending, snd (confirm id db)))
  /\ (statusCode (fst (reject id db)) = 200%nat ->
      confirm id (snd (reject id db)) = (notPending, snd (reject id db))).
Proof.
  split; intros Hok.
  - destruct (confirm_ok_status _ _ Hok) as (p & Hp & Hs).
    apply (reject_not_pending _ _ p Hp). congruence.
  - destruct (reject_ok_status _ _ Hok) as (p & Hp & Hs).
    apply (confirm_not_pending _ _ p Hp). congruence.
Qed.


Lemma terminal_state_immutable_witness :
  let db := run oneReservation emptyDB in
  reject 3%nat (snd (confirm 3%nat db)) = (notPending, snd (confirm 3%nat db))
  /\ confirm 3%nat (snd (reject 3%nat db))
     = (notPending, snd (reject 3%nat db)).
Proof.
  intros db. destruct (terminal_state_immutable 3%nat db) as [H1 H2].
  split; [apply H1 | apply H2]; reflexivity.
Defined.

(** ** The reservation *)

Lemma reserveTickets_claimAll now userId raffleId numbers db :
  reserveTickets now userId raffleId numbers db
  = inr (unavailableIn (claimAll now userId raffleId numbers (tickets db)),
         withTickets
           (fun _ => snd (claimAll now userId raffleId numbers (tickets db)))
           db).
Proof.
  revert db. induction numbers as [|n rest IH]; intros db.
  - destruct db; reflexivity.
  - simpl. unfold bind at 1, Ticket_findOneAndUpdate.
    destruct (findOneAndUpdate _ _ (tickets db)) as [ticket ts1].
    unfold bind at 1. rewrite IH. simpl.
    destruct (claimAll now userId raffleId rest ts1) as [[cl un] ts2].
    destruct ticket; reflexivity.
Qed.

(** The reservation loop never turns a document into a claimable one. *)
Lemma claim_keeps_unclaimable now userId raffleId n m ts :
  (forall t, In t ts -> claimable n raffleId t = false) ->
  forall t,
    In t (snd (findOneAndUpdate (claimable m raffleId)
                                (setReserved now userId) ts)) ->
    claimable n raffleId t = false.
Proof.
  intros Hall t Ht.
  apply findOneAndUpdate_In in Ht as [Ht|(x & Hx & _ & ->)]; [auto|].
  unfold claimable, setReserved. simpl.
  now rewrite andb_false_r.
Qed.

Lemma claimAll_unavailable now userId raffleId numbers ts n :
  In n numbers ->
  (forall t, In t ts -> claimable n raffleId t = false) ->
  In n (unavailableIn (claimAll now userId raffleId numbers ts)).
Proof.
  revert ts. induction numbers as [|m rest IH]; intros ts Hn Hall;
    [contradiction|].
  simpl.
  pose proof (claim_keeps_unclaimable now userId raffleId n m ts Hall) as Hkeep.
  destruct (findOneAndUpdate (claimable m raffleId) (setReserved now userId) ts)
    as [ticket ts1] eqn:E.
  simpl in Hkeep.
  destruct Hn as [->|Hn].
  - destruct ticket as [y|].
    + assert (Hy : fst (findOneAndUpdate (claimable n raffleId)
                          (setReserved now userId) ts) = Some y)
        by now rewrite E.
      apply findOneAndUpdate_some in Hy as (x & Hx & Hq & _).
      rewrite (Hall x Hx) in Hq. discriminate.
    + destruct (claimAll now userId raffleId rest ts1) as [[cl un] ts2].
      unfold unavailableIn. simpl. auto.
  - specialize (IH ts1 Hn Hkeep).
    destruct (claimAll now userId raffleId rest ts1) as [[cl un] ts2].
    unfold unavailableIn in *. simpl in *.
    destruct ticket; simpl; auto.
Qed.

(** A document that is available after the loop was there, available,
    before it. *)
Lemma claimAll_available_before now userId raffleId numbers ts t :
  In t (snd (claimAll now userId raffleId numbers ts)) ->
  Ticket.status t = Ticket.available ->
  In t ts.
Proof.
  revert ts. induction numbers as [|m rest IH]; intros ts Ht Hs; [exact Ht|].
  simpl in Ht.
  destruct (findOneAndUpdate (claimable m raffleId) (setReserved now userId) ts)
    as [ticket ts1] eqn:E.
  assert (Hin : In t ts1).
  { apply IH; [|exact Hs].
    destruct (claimAll now userId raffleId rest ts1) as [[cl un] ts2].
    destruct ticket; exact Ht. }
  replace ts1 with (snd (findOneAndUpdate (claimable m raffleId)
                           (setReserved now userId) ts)) in Hin
    by now rewrite E.
  apply findOneAndUpdate_In in Hin as [Hin|(x & _ & _ & ->)]; [exact Hin|].
  discriminate.
Qed.

(** Every number the loop claims had an available ticket of the raffle
    when the loop started. *)
Lemma claimAll_claimed_available now userId raffleId numbers ts n :
  In n (claimedIn (claimAll now userId raffleId numbers ts)) ->
  exists t, In t ts /\ Ticket.raffleId t = raffleId
            /\ Ticket.ticketNumber t = n
            /\ Ticket.status t = Ticket.available.
Proof.
  revert ts. induction numbers as [|m rest IH]; intros ts Hn;
    [contradiction|].
  simpl in Hn.
  destruct (findOneAndUpdate (claimable m raffleId) (setReserved now userId) ts)
    as [ticket ts1] eqn:E.
  assert (Hrest : In n (claimedIn (claimAll now userId raffleId rest ts1)) ->
                  exists t, In t ts /\ Ticket.raffleId t = raffleId
                            /\ Ticket.ticketNumber t = n
                            /\ Ticket.status t = Ticket.available).
  { intros H. destruct (IH ts1 H) as (t & Ht & Hr & Hk & Hs).
    exists t. repeat split; auto.
    replace ts1 with (snd (findOneAndUpdate (claimable m raffleId)
                             (setReserved now userId) ts)) in Ht
      by now rewrite E.
    apply findOneAndUpdate_In in Ht as [Ht|(x & _ & _ & ->)]; [exact Ht|].
    discriminate. }
  destruct (claimAll now userId raffleId rest ts1) as [[cl un] ts2].
  unfold claimedIn in *. simpl in *.
  destruct ticket as [y|]; simpl in Hn; [|auto].
  destruct Hn as [<-|Hn]; [|auto].
  assert (Hy : fst (findOneAndUpdate (claimable m raffleId)
                      (setReserved now userId) ts) = Some y)
    by now rewrite E.
  apply findOneAndUpdate_some in Hy as (x & Hx & Hq & _).
  unfold claimable in Hq.
  apply andb_prop in Hq as [Hq Hr]. apply andb_prop in Hq as [Hk Hs].
  exists x. repeat split; auto.
  - now apply Nat.eqb_eq.
  - now apply Z.eqb_eq.
  - destruct (Ticket.status x); simpl in Hs; congruence.
Qed.

(** The route on a request whose attempt leaves some number unclaimed:
    the transaction is aborted and the message lists those numbers. *)
Lemma createAndPay_unavailable now req db activeRaffle numbers :
  findOne (fun u => (User.email u =? PayReq.email req)%string) (users db)
  = None ->
  findOne Raffle.active (raffles db) = Some activeRaffle ->
  PayReq.selectedNumbers req = Some numbers ->
  unavailableIn
    (claimAll now (nextId db) (Raffle._id activeRaffle) numbers (tickets db))
  <> [] ->
  createAndPay now req db
  = (mkResponse 400
       (unavailableMessage
          (unavailableIn
             (claimAll now (nextId db) (Raffle._id activeRaffle) numbers
                (tickets db)))),
     db).
Proof.
  intros Hu Hr Hn Hun.
  unfold createAndPay, withTransaction, createAndPayBody.
  unfold bind at 1, get. rewrite Hu, Hr.
  unfold bind at 1, newObjectId. unfold bind at 1, setUsers. rewrite Hn.
  unfold bind at 1. rewrite reserveTickets_claimAll. simpl tickets.
  simpl nextId.
  destruct (unavailableIn _) as [|n un] eqn:E; [congruence|].
  reflexivity.
Qed.

(** C10. A create-and-pay request whose email already belongs to a user
    fails as a whole: the answer is the error that the user exists and the
    database is unchanged, so no ticket is reserved, no user or payment
    document is created and no raffle counter moves. *)
Theorem existing_email_changes_nothing now req db :
  (exists u, In u (users db) /\ User.email u = PayReq.email req) ->
  createAndPay now req db
  = (mkResponse 400 "User with this email already exists", db).
Proof.
  intros (u & Hin & He).
  destruct (findOne_exists
              (fun u => (User.email u =? PayReq.email req)%string)
              (users db) u Hin) as [y Hy].
  { now apply String.eqb_eq. }
  unfold createAndPay, withTransaction, createAndPayBody.
  unfold bind at 1, get. now rewrite Hy.
Qed.

Lemma existing_email_changes_nothing_witness :
  let db := run oneReservation emptyDB in
  createAndPay hour (purchase "a@x" [3]) db
  = (mkResponse 400 "User with this email already exists", db).
Proof.
  intros db. apply existing_email_changes_nothing.
  exists (User.mk 2%nat "a@x"). split; [simpl; auto | reflexivity].
Defined.

(** C2. When some requested number fails its conditional claim, the
    reservation is abandoned: the answer is the error that names the
    unavailable numbers, the database after the call is the database from
    before it, every number claimed during the attempt has its ticket
    available again, and no payment document was created. *)
Theorem reservation_all_or_nothing now req db activeRaffle numbers :
  findOne (fun u => (User.email u =? PayReq.email req)%string) (users db)
  = None ->
  findOne Raffle.active (raffles db) = Some activeRaffle ->
  PayReq.selectedNumbers req = Some numbers ->
  let attempt :=
    claimAll now (nextId db) (Raffle._id activeRaffle) numbers (tickets db) in
  let after := snd (createAndPay now req db) in
  unavailableIn attempt <> [] ->
  fst (createAndPay now req db)
  = mkResponse 400 (unavailableMessage (unavailableIn attempt))
  /\ after = db
  /\ (forall n, In n (claimedIn attempt) ->
        exists t, In t (tickets after)
                  /\ Ticket.raffleId t = Raffle._id activeRaffle
                  /\ Ticket.ticketNumber t = n
                  /\ Ticket.status t = Ticket.available)
  /\ payments after = payments db.
Proof.
  intros Hu Hr Hn attempt after Hun. subst after.
  rewrite (createAndPay_unavailable now req db activeRaffle numbers Hu Hr Hn Hun).
  simpl. repeat split.
  intros n Hc. now apply claimAll_claimed_available in Hc.
Qed.

Lemma reservation_all_or_nothing_witness :
  let db := run oneReservation emptyDB in
  fst (createAndPay hour (purchase "b@x" [3; 2]) db)
  = mkResponse 400 "Tickets not available: 2"
  /\ snd (createAndPay hour (purchase "b@x" [3; 2]) db) = db
  /\ statusOf 1%nat 3 (snd (createAndPay hour (purchase "b@x" [3; 2]) db))
     = Some Ticket.available.
Proof.
  intros db.
  destruct (reservation_all_or_nothing hour (purchase "b@x" [3; 2]) db
              (Raffle.mk 1%nat 3 0 2 true) [3; 2]) as (H1 & H2 & _ & _);
    try reflexivity.
  - vm_compute. discriminate.
  - split; [exact H1|]. split; [exact H2|]. rewrite H2. reflexivity.
Defined.

(** ** Updates that keep a projection *)

Section Projections.
Context {A B : Type} (f : A -> B).
Implicit Types (q : A -> bool) (u : A -> A) (c : list A).

Lemma map_updateMany q u c :
  (forall x, f (u x) = f x) -> map f (updateMany q u c) = map f c.
Proof.
  intros Hu. unfold updateMany. rewrite map_map.
  apply map_ext. intros x. now destruct (q x).
Qed.

Lemma map_findOneAndUpdate q u c :
  (forall x, f (u x) = f x) ->
  map f (snd (findOneAndUpdate q u c)) = map f c.
Proof.
  intros Hu. induction c as [|x c IH]; simpl; [reflexivity|].
  destruct (q x).
  - simpl. now rewrite Hu.
  - destruct (findOneAndUpdate q u c) as [r c']. simpl in *.
    now rewrite IH.
Qed.

Lemma map_updateOne q u c :
  (forall x, f (u x) = f x) -> map f (updateOne q u c) = map f c.
Proof. apply map_findOneAndUpdate. Qed.

Lemma NoDup_map_deleteOne q c :
  NoDup (map f c) -> NoDup (map f (deleteOne q c)).
Proof.
  induction c as [|x c IH]; simpl; [auto|].
  intros H. inversion H as [|? ? Hx Hc]; subst.
  destruct (q x); [exact Hc|].
  simpl. constructor; [|auto].
  intros Hin. apply Hx.
  apply in_map_iff in Hin as (y & <- & Hy).
  apply in_map. clear -Hy.
  induction c as [|z c IH]; simpl in *; [contradiction|].
  destruct (q z); [auto|]. destruct Hy; auto.
Qed.
End Projections.

Lemma deleteOne_In {A} (q : A -> bool) c x : In x (deleteOne q c) -> In x c.
Proof.
  induction c as [|y c IH]; simpl; [auto|].
  destruct (q y); [auto|]. intros [H|H]; auto.
Qed.

Lemma deleteMany_In {A} (q : A -> bool) c x : In x (deleteMany q c) -> In x c.
Proof. unfold deleteMany. rewrite filter_In. tauto. Qed.

Lemma map_claimAll {B} (f : Ticket.t -> B) now userId raffleId numbers ts :
  (forall t, f (setReserved now userId t) = f t) ->
  map f (snd (claimAll now userId raffleId numbers ts)) = map f ts.
Proof.
  intros Hf. revert ts. induction numbers as [|n rest IH]; intros ts;
    [reflexivity|].
  simpl.
  pose proof (map_findOneAndUpdate f (claimable n raffleId)
                (setReserved now userId) ts Hf) as H1.
  destruct (findOneAndUpdate _ _ ts) as [ticket ts1]. simpl in H1.
  specialize (IH ts1).
  destruct (claimAll now userId raffleId rest ts1) as [[cl un] ts2].
  simpl in IH. destruct ticket; simpl; congruence.
Qed.

(** ** Counting active raffles *)

Lemma activeCount_map rs rs' :
  map Raffle.active rs' = map Raffle.active rs ->
  countDocuments Raffle.active rs' = countDocuments Raffle.active rs.
Proof.
  unfold countDocuments. revert rs'.
  induction rs as [|r rs IH]; intros [|r' rs']; simpl; try discriminate;
    [reflexivity|].
  intros [= Ha Hm]. rewrite Ha. destruct (Raffle.active r); simpl;
    now rewrite (IH _ Hm).
Qed.

Lemma deactivate_all_count rs :
  countDocuments Raffle.active (updateMany (fun _ => true) (setActive false) rs)
  = 0%nat.
Proof. induction rs as [|r rs IH]; simpl; auto. Qed.

(** When only the raffles of one id can be active and ids are used once,
    at most one raffle is active. *)
Lemma one_id_one_active k rs :
  NoDup (map Raffle._id rs) ->
  (forall r, In r rs -> Raffle.active r = true -> Raffle._id r = k) ->
  (countDocuments Raffle.active rs <= 1)%nat.
Proof.
  unfold countDocuments.
  induction rs as [|r rs IH]; simpl; intros Hnd Hk; [lia|].
  inversion Hnd as [|? ? Hr Hrs]; subst.
  destruct (Raffle.active r) eqn:Ha; [|apply IH; auto].
  simpl. assert (Hnone : filter Raffle.active rs = []).
  { destruct (filter Raffle.active rs) as [|r' l] eqn:E; [reflexivity|].
    assert (Hin : In r' (filter Raffle.active rs)) by (rewrite E; simpl; auto).
    apply filter_In in Hin as [Hin Ha'].
    exfalso. apply Hr. rewrite (Hk r (or_introl eq_refl) Ha).
    rewrite <- (Hk r' (or_intror Hin) Ha'). now apply in_map. }
  rewrite Hnone. simpl. lia.
Qed.

Lemma deactivate_others_active k rs r :
  In r (updateMany (fun r => negb (Raffle._id r =? k)%nat) (setActive false) rs) ->
  Raffle.active r = true -> Raffle._id r = k.
Proof.
  intros Hin Ha. apply updateMany_In in Hin as (x & Hx & ->).
  destruct (Raffle._id x =? k)%nat eqn:E; simpl in *.
  - now apply Nat.eqb_eq.
  - discriminate.
Qed.

Lemma updateOne_active k b rs r :
  (forall r, In r rs -> Raffle.active r = true -> Raffle._id r = k) ->
  In r (updateOne (fun r => (Raffle._id r =? k)%nat) (setActive b) rs) ->
  Raffle.active r = true -> Raffle._id r = k.
Proof.
  intros Hall Hin Ha. unfold updateOne in Hin.
  apply findOneAndUpdate_In in Hin as [Hin|(x & Hx & Hq & ->)]; [auto|].
  simpl. now apply Nat.eqb_eq.
Qed.

Lemma setInactive_count (q : Raffle.t -> bool) rs :
  (countDocuments Raffle.active (updateOne q (setActive false) rs)
   <= countDocuments Raffle.active rs)%nat.
Proof.
  unfold countDocuments, updateOne.
  induction rs as [|r rs IH]; simpl; [lia|].
  destruct (q r); simpl.
  - destruct (Raffle.active r); simpl; lia.
  - destruct (findOneAndUpdate q (setActive false) rs) as [x rs']. simpl in *.
    destruct (Raffle.active r); simpl; lia.
Qed.

Lemma deleteOne_count (q : Raffle.t -> bool) rs :
  (countDocuments Raffle.active (deleteOne q rs)
   <= countDocuments Raffle.active rs)%nat.
Proof.
  unfold countDocuments.
  induction rs as [|r rs IH]; simpl; [lia|].
  destruct (q r); simpl; destruct (Raffle.active r); simpl; lia.
Qed.

Lemma castBoolean_true_truthy v : castBoolean v = Some true -> truthy v = true.
Proof.
  destruct v as [b|n|s]; simpl.
  - now intros [= ->].
  - destruct (n =? 1) eqn:E1; [|destruct (n =? 0); discriminate].
    apply Z.eqb_eq in E1. now subst.
  - destruct (s =? "")%string eqn:E; [|reflexivity].
    apply String.eqb_eq in E. subst. discriminate.
Qed.

(** ** Operations that keep the shape of the database *)

Lemma sameShape_refl db : sameShape db db.
Proof. unfold sameShape. auto. Qed.

Lemma raffle_ids_shape rs :
  map Raffle._id rs = map fst (map raffleShape rs).
Proof. rewrite map_map. reflexivity. Qed.

Lemma createAndPay_sameShape now req db :
  sameShape db (snd (createAndPay now req db)).
Proof.
  unfold createAndPay, withTransaction, createAndPayBody.
  unfold bind at 1, get.
  destruct (findOne _ (users db)); [apply sameShape_refl|].
  destruct (findOne Raffle.active (raffles db)) as [activeRaffle|];
    [|apply sameShape_refl].
  unfold bind at 1, newObjectId. unfold bind at 1, setUsers.
  destruct (PayReq.selectedNumbers req) as [numbers|]; [|apply sameShape_refl].
  unfold bind at 1. rewrite reserveTickets_claimAll. simpl tickets.
  simpl nextId.
  destruct (0 <? _)%nat; [apply sameShape_refl|].
  unfold bind at 1, newObjectId. simpl.
  destruct (validPayment _); simpl; [|apply sameShape_refl].
  unfold sameShape. simpl. repeat split.
  - now apply map_claimAll.
  - now apply map_updateOne.
  - now apply map_updateOne.
  - lia.
Qed.

Lemma confirm_sameShape id db : sameShape db (snd (confirm id db)).
Proof.
  unfold confirm, withTransaction, confirmBody, bind, get.
  destruct (Payment_findById id db) as [p|]; [|apply sameShape_refl].
  destruct (Payment.status p); simpl; try apply sameShape_refl.
  unfold Raffle_findById. simpl.
  destruct (findOne _ (raffles db)); unfold sameShape; simpl; repeat split;
    try lia;
    try (now apply map_updateMany); now apply map_updateOne.
Qed.

Lemma reject_sameShape id db : sameShape db (snd (reject id db)).
Proof.
  unfold reject, withTransaction, rejectBody, bind, get.
  destruct (Payment_findById id db) as [p|]; [|apply sameShape_refl].
  destruct (Payment.status p); simpl; try apply sameShape_refl.
  unfold Raffle_findById. simpl.
  destruct (findOne _ (raffles db)); unfold sameShape; simpl; repeat split;
    try lia;
    try (now apply map_updateMany); now apply map_updateOne.
Qed.

Lemma ticketReleaseJob_sameShape now db :
  sameShape db (ticketReleaseJob now db).
Proof.
  unfold ticketReleaseJob.
  destruct (0 <? _)%nat; [|apply sameShape_refl].
  unfold sameShape, releaseNumbers, withTickets. simpl. repeat split.
  - now apply map_updateMany.
  - lia.
Qed.

Lemma ticketsInRange_keys db db' :
  map ticketKey (tickets db') = map ticketKey (tickets db) ->
  map raffleShape (raffles db') = map raffleShape (raffles db) ->
  ticketsInRange db -> ticketsInRange db'.
Proof.
  intros Ht Hr Hrange t r Hin Hrin Heq.
  apply (in_map ticketKey) in Hin. rewrite Ht in Hin.
  apply in_map_iff in Hin as (t0 & Hk & Hin0).
  apply (in_map raffleShape) in Hrin. rewrite Hr in Hrin.
  apply in_map_iff in Hrin as (r0 & Hs & Hrin0).
  unfold ticketKey in Hk. unfold raffleShape in Hs.
  injection Hk as Hk1 Hk2. injection Hs as Hs1 Hs2.
  rewrite <- Hk2, <- Hs2. apply Hrange; auto. congruence.
Qed.

Lemma wellFormed_sameShape db db' :
  sameShape db db' -> wellFormed db -> wellFormed db'.
Proof.
  intros (Ht & Hr & Ha & Hn) [W1 W2 W3 W4 W5]. constructor.
  - intros r Hin. apply (in_map raffleShape) in Hin. rewrite Hr in Hin.
    apply in_map_iff in Hin as (r0 & Hs & Hin0).
    injection Hs as Hs1 _. specialize (W1 r0 Hin0). lia.
  - intros t Hin. apply (in_map ticketKey) in Hin. rewrite Ht in Hin.
    apply in_map_iff in Hin as (t0 & Hk & Hin0).
    injection Hk as Hk1 _. specialize (W2 t0 Hin0). lia.
  - rewrite raffle_ids_shape, Hr, <- raffle_ids_shape. exact W3.
  - unfold activeCount in *. now rewrite (activeCount_map _ _ Ha).
  - eapply ticketsInRange_keys; eauto.
Qed.

(** ** The raffle routes keep the database well formed *)

Lemma ticketNumbersUpTo_range n k : In k (ticketNumbersUpTo n) -> 1 <= k <= n.
Proof.
  unfold ticketNumbersUpTo. rewrite in_map_iff.
  intros (i & <- & Hi). apply in_seq in Hi. lia.
Qed.

Lemma createRaffle_wellFormed req db :
  wellFormed db -> wellFormed (snd (createRaffle req db)).
Proof.
  intros W. unfold createRaffle, withTransaction, createRaffleBody.
  destruct (CreateReq.price req) as [price|]; [|exact W].
  destruct (CreateReq.totalTickets req) as [total|]; [|exact W].
  destruct (CreateReq.file req); [|exact W].
  destruct (_ || _)%bool; [exact W|].
  destruct (price <=? 0); [exact W|].
  destruct (total <=? 0); [exact W|].
  destruct W as [W1 W2 W3 W4 W5].
  unfold bind, setRaffles, setTickets, newObjectId, ret. simpl.
  constructor; simpl.
  - intros r Hin. apply in_app_or in Hin as [Hin|[<-|[]]]; simpl; [|lia].
    apply updateMany_In in Hin as (x & Hx & ->). simpl.
    specialize (W1 x Hx). lia.
  - intros t Hin. apply in_app_or in Hin as [Hin|Hin].
    + specialize (W2 t Hin). lia.
    + apply in_map_iff in Hin as (k & <- & _). simpl. lia.
  - rewrite map_app, (map_updateMany Raffle._id) by reflexivity. simpl.
    apply NoDup_app; [exact W3 | repeat constructor; simpl; tauto |].
    intros k Hk [<-|[]].
    apply in_map_iff in Hk as (r & Hr & Hin). specialize (W1 r Hin). lia.
  - unfold activeCount, countDocuments in *. simpl.
    rewrite filter_app, length_app.
    fold (countDocuments Raffle.active
            (updateMany (fun _ => true) (setActive false) (raffles db))).
    rewrite deactivate_all_count. simpl. lia.
  - intros t r Hin Hrin Heq. simpl in *.
    apply in_app_or in Hin as [Hin|Hin];
      apply in_app_or in Hrin as [Hrin|[<-|[]]]; simpl in *.
    + apply updateMany_In in Hrin as (x & Hx & ->). simpl in *.
      apply (W5 t x Hin Hx Heq).
    + specialize (W2 t Hin). lia.
    + apply in_map_iff in Hin as (k & <- & _). simpl in *.
      apply updateMany_In in Hrin as (x & Hx & ->). simpl in *.
      specialize (W1 x Hx). lia.
    + apply in_map_iff in Hin as (k & <- & Hk). simpl.
      now apply ticketNumbersUpTo_range.
Qed.

Lemma deactivateOthers_shape raffle req db :
  map raffleShape (raffles (deactivateOthers raffle req db))
  = map raffleShape (raffles db)
  /\ tickets (deactivateOthers raffle req db) = tickets db
  /\ nextId (deactivateOthers raffle req db) = nextId db.
Proof.
  unfold deactivateOthers.
  destruct (UpdateReq.active req) as [v|]; [|auto].
  destruct (truthy v); [|auto]. simpl.
  split; [now apply map_updateMany | auto].
Qed.

Lemma deactivateOthers_count raffle req db :
  wellFormed db ->
  (activeCount (deactivateOthers raffle req db) <= 1)%nat
  /\ (forall v, UpdateReq.active req = Some v -> truthy v = true ->
        forall r, In r (raffles (deactivateOthers raffle req db)) ->
                  Raffle.active r = true -> Raffle._id r = Raffle._id raffle).
Proof.
  intros W. unfold deactivateOthers.
  destruct (UpdateReq.active req) as [v|]; [|split; [apply W|discriminate]].
  destruct (truthy v) eqn:Hv.
  - assert (Hk : forall r,
               In r (raffles
                       (withRaffles
                          (updateMany
                             (fun r => negb (Raffle._id r =? Raffle._id raffle)%nat)
                             (setActive false)) db)) ->
               Raffle.active r = true -> Raffle._id r = Raffle._id raffle).
    { intros r. simpl. apply deactivate_others_active. }
    split; [|intros ? _ _; exact Hk].
    apply (one_id_one_active (Raffle._id raffle)); [|exact Hk].
    simpl. rewrite (map_updateMany Raffle._id) by reflexivity. apply W.
  - split; [apply W|]. intros v' [= <-] Hv'. congruence.
Qed.

Lemma updateRaffle_wellFormed id req db :
  wellFormed db -> wellFormed (snd (updateRaffle id req db)).
Proof.
  intros W. unfold updateRaffle.
  destruct (Raffle_findById id db) as [raffle|]; [|exact W].
  destruct (deactivateOthers_shape raffle req db) as (Hs & Ht & Hn).
  destruct (deactivateOthers_count raffle req db W) as (Hc & Hk).
  set (db1 := deactivateOthers raffle req db) in *.
  assert (W1 : wellFormed db1).
  { destruct W as [W1 W2 W3 W4 W5]. constructor.
    - intros r Hin. apply (in_map raffleShape) in Hin. rewrite Hs in Hin.
      apply in_map_iff in Hin as (r0 & Hr & Hin0).
      injection Hr as Hr1 _. specialize (W1 r0 Hin0). lia.
    - rewrite Ht, Hn. exact W2.
    - rewrite raffle_ids_shape, Hs, <- raffle_ids_shape. exact W3.
    - exact Hc.
    - apply (ticketsInRange_keys db); [now rewrite Ht | exact Hs | exact W5]. }
  destruct (UpdateReq.active req) as [v|] eqn:Hv; [|exact W1].
  destruct (castBoolean v) as [b|] eqn:Hb; [|exact W1].
  simpl. destruct W1 as [V1 V2 V3 V4 V5]. constructor; simpl.
  - intros r Hin. apply (in_map Raffle._id) in Hin.
    rewrite (map_updateOne Raffle._id) in Hin by reflexivity.
    apply in_map_iff in Hin as (r0 & <- & Hin0). auto.
  - exact V2.
  - rewrite (map_updateOne Raffle._id) by reflexivity. exact V3.
  - unfold activeCount. simpl. destruct b.
    + apply (one_id_one_active (Raffle._id raffle)).
      * rewrite (map_updateOne Raffle._id) by reflexivity. exact V3.
      * intros r. apply updateOne_active.
        apply (Hk v eq_refl). now apply castBoolean_true_truthy.
    + etransitivity; [apply setInactive_count | exact V4].
  - apply (ticketsInRange_keys db1); [reflexivity | | exact V5].
    simpl. now apply map_updateOne.
Qed.

Lemma deleteRaffle_wellFormed id db :
  wellFormed db -> wellFormed (snd (deleteRaffle id db)).
Proof.
  intros W. unfold deleteRaffle.
  destruct (Raffle_findById id db) as [raffle|]; [|exact W].
  destruct (0 <? _)%nat; [exact W|].
  destruct W as [W1 W2 W3 W4 W5]. constructor; simpl.
  - intros r Hin. apply deleteOne_In in Hin. auto.
  - intros t Hin. apply deleteMany_In in Hin. auto.
  - now apply NoDup_map_deleteOne.
  - unfold activeCount. simpl.
    etransitivity; [apply deleteOne_count | exact W4].
  - intros t r Hin Hrin. simpl in *.
    apply deleteMany_In in Hin. apply deleteOne_In in Hrin. now apply W5.
Qed.

Lemma emptyDB_wellFormed : wellFormed emptyDB.
Proof.
  constructor; simpl; try contradiction.
  - constructor.
  - unfold activeCount, countDocuments. simpl. lia.
  - intros t r [].
Qed.

Lemma exec_wellFormed op db : wellFormed db -> wellFormed (exec op db).
Proof.
  intros W. destruct op; simpl.
  - eapply wellFormed_sameShape; [apply createAndPay_sameShape | exact W].
  - eapply wellFormed_sameShape; [apply confirm_sameShape | exact W].
  - eapply wellFormed_sameShape; [apply reject_sameShape | exact W].
  - now apply createRaffle_wellFormed.
  - now apply updateRaffle_wellFormed.
  - now apply deleteRaffle_wellFormed.
  - eapply wellFormed_sameShape; [apply ticketReleaseJob_sameShape | exact W].
Qed.

Lemma reachable_wellFormed db : reachable db -> wellFormed db.
Proof.
  induction 1 as [|op db _ IH];
    [apply emptyDB_wellFormed | now apply exec_wellFormed].
Qed.

Lemma run_reachable ops db : reachable db -> reachable (run ops db).
Proof.
  revert db. induction ops as [|op ops IH]; intros db H; simpl; [exact H|].
  apply IH. now constructor.
Qed.

(** ** At most one active raffle *)

(** POST /create leaves the raffle it creates as the only active one. *)
Lemma createRaffle_only_new_active req db r :
  statusCode (fst (createRaffle req db)) = 201%nat ->
  In r (raffles (snd (createRaffle req db))) ->
  Raffle.active r = true -> Raffle._id r = nextId db.
Proof.
  unfold createRaffle, withTransaction, createRaffleBody.
  destruct (CreateReq.price req) as [price|]; [|discriminate].
  destruct (CreateReq.totalTickets req) as [total|]; [|discriminate].
  destruct (CreateReq.file req); [|discriminate].
  destruct (_ || _)%bool; [discriminate|].
  destruct (price <=? 0); [discriminate|].
  destruct (total <=? 0); [discriminate|].
  unfold bind, setRaffles, setTickets, newObjectId, ret. simpl.
  intros _ Hin Ha. apply in_app_or in Hin as [Hin|[<-|[]]]; [|reflexivity].
  apply updateMany_In in Hin as (x & _ & ->). discriminate.
Qed.



(** ** Ticket numbers out of range *)

(** C8, as the code has it.  In a state the server reaches, a
    create-and-pay request of a new buyer that asks for a number outside
    [1, totalTickets] of the active raffle is answered with the error for
    unavailable tickets, which names that number, and changes nothing. *)
Theorem out_of_range_reported_unavailable ops now req activeRaffle numbers n :
  let db := run ops emptyDB in
  let unavailable :=
    unavailableIn
      (claimAll now (nextId db) (Raffle._id activeRaffle) numbers (tickets db))
  in
  findOne (fun u => (User.email u =? PayReq.email req)%string) (users db)
  = None ->
  findOne Raffle.active (raffles db) = Some activeRaffle ->
  PayReq.selectedNumbers req = Some numbers ->
  In n numbers ->
  n < 1 \/ Raffle.totalTickets activeRaffle < n ->
  In n unavailable
  /\ createAndPay now req db
     = (mkResponse 400 (unavailableMessage unavailable), db).
Proof.
  intros db unavailable Hu Hr Hs Hn Hout.
  assert (W : wellFormed db)
    by (apply reachable_wellFormed, run_reachable; constructor).
  assert (Hin : In n unavailable).
  { apply claimAll_unavailable; [exact Hn|].
    intros t Ht. unfold claimable.
    destruct (Ticket.ticketNumber t =? n) eqn:Ek; [|reflexivity].
    destruct (Ticket.raffleId t =? Raffle._id activeRaffle)%nat eqn:Er;
      [|now rewrite andb_false_r].
    exfalso. apply Z.eqb_eq in Ek. apply Nat.eqb_eq in Er.
    apply findOne_some in Hr as [Hrin _].
    pose proof (wf_in_range db W t activeRaffle Ht Hrin Er). lia. }
  split; [exact Hin|].
  apply createAndPay_unavailable; auto.
  intros E. fold unavailable in E. rewrite E in Hin. contradiction.
Qed.

Lemma out_of_range_reported_unavailable_witness :
  let db := run [CreateRaffle (raffleOf 10)] emptyDB in
  createAndPay 0 (purchase "a@x" [3; 11]) db
  = (mkResponse 400 "Tickets not available: 11", db).
Proof.
  intros db.
  apply (out_of_range_reported_unavailable
           [CreateRaffle (raffleOf 10)] 0 (purchase "a@x" [3; 11])
           (Raffle.mk 1%nat 10 0 0 true) [3; 11] 11);
    try reflexivity.
  - simpl. auto.
  - right. simpl. lia.
Defined.

(** C8, as stated, fails: on a raffle of ten tickets, asking for ticket 11
    is answered exactly as asking for a taken ticket is, with the message
    for unavailable tickets and status 400; no other error exists. *)
Lemma out_of_range_is_not_a_distinct_error :
  let db := run [CreateRaffle (raffleOf 10)] emptyDB in
  fst (createAndPay 0 (purchase "a@x" [11]) db)
  = mkResponse 400 (unavailableMessage [11])
  /\ unavailableMessage [11] = "Tickets not available: 11".
Proof. split; reflexivity. Qed.

(** ** What the release job and the confirm route write *)

(** The release job writes no raffle and no payment document. *)
Lemma ticketReleaseJob_raffles now db :
  raffles (ticketReleaseJob now db) = raffles db
  /\ payments (ticketReleaseJob now db) = payments db.
Proof.
  unfold ticketReleaseJob. destruct (0 <? _)%nat; auto.
Qed.

(** The update of the release job resets every ticket that carries one
    of the collected numbers, whatever its raffle and status. *)
Lemma releaseNumbers_resets ticketNumbers db t :
  In t (tickets db) ->
  In (Ticket.ticketNumber t) ticketNumbers ->
  In (setAvailable t) (tickets (releaseNumbers ticketNumbers db)).
Proof.
  intros Ht Hn. unfold releaseNumbers, withTickets, updateMany. simpl.
  apply in_map_iff. exists t. split; [|exact Ht].
  replace (existsb _ ticketNumbers) with true; [reflexivity|].
  symmetry. apply existsb_exists. exists (Ticket.ticketNumber t).
  split; [exact Hn | apply Z.eqb_refl].
Qed.

(** The confirm route marks as sold every reserved ticket that carries one
    of the payment's numbers, whatever its raffle and owner. *)
Lemma confirm_sells_by_number id db p t :
  Payment_findById id db = Some p ->
  Payment.status p = Payment.Pending ->
  In t (tickets db) ->
  Ticket.status t = Ticket.reserved ->
  In (Ticket.ticketNumber t) (Payment.selectedNumbers p) ->
  In (setSold t) (tickets (snd (confirm id db))).
Proof.
  intros Hp Hs Ht Hr Hn.
  unfold confirm, withTransaction, confirmBody, bind, get.
  rewrite Hp, Hs. simpl. unfold Raffle_findById. simpl.
  assert (Hin : In (setSold t)
                   (updateMany (reservedAmong (Payment.selectedNumbers p))
                               setSold (tickets db))).
  { unfold updateMany. apply in_map_iff. exists t. split; [|exact Ht].
    unfold reservedAmong. rewrite Hr. simpl. rewrite andb_true_r.
    replace (existsb _ _) with true; [reflexivity|].
    symmetry. apply existsb_exists. exists (Ticket.ticketNumber t).
    split; [exact Hn | apply Z.eqb_refl]. }
  destruct (findOne _ (raffles db)); exact Hin.
Qed.

(** ** Runs on which the engine breaks its contract *)

(** C1. Ticket 5 of raffle 1 is sold twice.  Payment 3 sells it; the
    release job, collecting the expired ticket 5 of raffle 4, resets it by
    number; once raffle 1 is active again payment 8 reserves it and sells
    it a second time. *)
Theorem same_ticket_sold_twice :
  let db1 := run [CreateRaffle (raffleOf 5);
                  CreateAndPay 0 (purchase "a@x" [5])] emptyDB in
  let db2 := exec (Confirm 3%nat) db1 in
  let db3 := run [CreateRaffle (raffleOf 5);
                  CreateAndPay 0 (purchase "b@x" [5])] db2 in
  let db4 := exec (ReleaseJob (25 * hour)) db3 in
  let db5 := run [UpdateRaffle 1%nat activate;
                  CreateAndPay (26 * hour) (purchase "c@x" [5])] db4 in
  let db6 := exec (Confirm 8%nat) db5 in
  (statusOf 1%nat 5 db1 = Some Ticket.reserved
   /\ statusOf 1%nat 5 db2 = Some Ticket.sold
   /\ paymentStatus 3%nat db2 = Some Payment.Confirmed)
  /\ (statusOf 1%nat 5 db3 = Some Ticket.sold
      /\ statusOf 1%nat 5 db4 = Some Ticket.available)
  /\ (statusOf 1%nat 5 db5 = Some Ticket.reserved
      /\ statusOf 1%nat 5 db6 = Some Ticket.sold
      /\ paymentStatus 8%nat db6 = Some Payment.Confirmed
      /\ paymentStatus 3%nat db6 = Some Payment.Confirmed).
Proof. vm_compute. repeat split. Qed.

(** The same within one raffle, when the admin's confirm lands between
    the two database calls of one job run: the job has read ticket 5 as
    expired, payment 3 sells it, the job's update resets it, and payment 5
    of another buyer reserves and sells it again. *)
Lemma sold_twice_when_confirm_overlaps_job :
  let db1 := run [CreateRaffle (raffleOf 5);
                  CreateAndPay 0 (purchase "a@x" [5])] emptyDB in
  let ticketNumbers :=
    map Ticket.ticketNumber (expiredTickets (25 * hour) db1) in
  let db2 := exec (Confirm 3%nat) db1 in
  let db3 := releaseNumbers ticketNumbers db2 in
  let db4 := exec (CreateAndPay (26 * hour) (purchase "b@x" [5])) db3 in
  let db5 := exec (Confirm 5%nat) db4 in
  ticketNumbers = [5]
  /\ statusOf 1%nat 5 db1 = Some Ticket.reserved
  /\ statusOf 1%nat 5 db2 = Some Ticket.sold
  /\ statusOf 1%nat 5 db3 = Some Ticket.available
  /\ statusOf 1%nat 5 db4 = Some Ticket.reserved
  /\ statusOf 1%nat 5 db5 = Some Ticket.sold
  /\ paymentStatus 3%nat db5 = Some Payment.Confirmed
  /\ paymentStatus 5%nat db5 = Some Payment.Confirmed.
Proof. vm_compute. repeat split. Qed.

(** C3. The counters agree with the tickets after the reservation, and no
    longer after the release job: both tickets are available again while
    [reservedTickets] still reads 2.  Confirming the stale payment then
    moves the counters by two although no ticket is sold. *)
Theorem counters_drift_after_release :
  let db1 := run oneReservation emptyDB in
  let db2 := exec (ReleaseJob (25 * hour)) db1 in
  let db3 := exec (Confirm 3%nat) db2 in
  countersConsistent db1 = true
  /\ (countersConsistent db2 = false
      /\ reservedCounter 1%nat db2 = Some 2
      /\ statusCount Ticket.reserved 1%nat db2 = 0)
  /\ (countersConsistent db3 = false
      /\ soldCounter 1%nat db3 = Some 2
      /\ statusCount Ticket.sold 1%nat db3 = 0).
Proof. vm_compute. repeat split. Qed.

(** C4. Confirming payment 3, of buyer 2 on raffle 1, also sells ticket 5
    of raffle 4, which buyer 5 reserved; and on one raffle, confirming the
    stale payment 3 of buyer 2 sells ticket 5 while buyer 4 holds it. *)
Theorem confirm_sells_foreign_tickets :
  (let db := run twoRafflesReserved emptyDB in
   statusOf 4%nat 5 db = Some Ticket.reserved
   /\ ownerOf 4%nat 5 db = Some 5%nat
   /\ option_map Payment.raffle (Payment_findById 3%nat db) = Some 1%nat
   /\ statusOf 4%nat 5 (snd (confirm 3%nat db)) = Some Ticket.sold)
  /\ (let db := run reservedAgain emptyDB in
      option_map Payment.user (Payment_findById 3%nat db) = Some 2%nat
      /\ statusOf 1%nat 5 db = Some Ticket.reserved
      /\ ownerOf 1%nat 5 db = Some 4%nat
      /\ statusOf 1%nat 5 (snd (confirm 3%nat db)) = Some Ticket.sold
      /\ ownerOf 1%nat 5 (snd (confirm 3%nat db)) = Some 4%nat).
Proof. vm_compute. repeat split. Qed.

(** C5. One run of the release job, 25 hours after ticket 5 of raffle 4
    was reserved, resets the sold ticket 5 of raffle 1; and on another
    run it resets ticket 5 of raffle 1 that was reserved half an hour
    before, because ticket 5 of raffle 2 has expired. *)
Theorem release_job_resets_by_number :
  (let db := run soldThenSecondRaffle emptyDB in
   map ticketKey (expiredTickets (25 * hour) db) = [(4%nat, 5)]
   /\ statusOf 1%nat 5 db = Some Ticket.sold
   /\ statusOf 1%nat 5 (ticketReleaseJob (25 * hour) db)
      = Some Ticket.available)
  /\ (let db := run freshAndStale emptyDB in
      map ticketKey (expiredTickets (25 * hour) db) = [(2%nat, 5)]
      /\ statusOf 1%nat 5 db = Some Ticket.reserved
      /\ ownerOf 1%nat 5 db = Some 5%nat
      /\ statusOf 1%nat 5 (ticketReleaseJob (25 * hour) db)
         = Some Ticket.available).
Proof. vm_compute. repeat split. Qed.

(** C6. For tickets reserved at time 0, the job run at 23 hours leaves
    them reserved and the job run at 25 hours resets them to available,
    but the raffle's [reservedTickets] stays at 2 although two tickets
    were released. *)
Theorem release_keeps_reserved_counter :
  let db := run oneReservation emptyDB in
  let early := ticketReleaseJob (23 * hour) db in
  let late := ticketReleaseJob (25 * hour) db in
  (statusOf 1%nat 1 early = Some Ticket.reserved
   /\ statusOf 1%nat 2 early = Some Ticket.reserved)
  /\ (statusOf 1%nat 1 late = Some Ticket.available
      /\ statusOf 1%nat 2 late = Some Ticket.available)
  /\ reservedCounter 1%nat db = Some 2
  /\ reservedCounter 1%nat late = Some 2
  /\ statusCount Ticket.reserved 1%nat late = 0.
Proof. vm_compute. repeat split. Qed.

(** A reservation older than the TTL when the job runs is released. *)
Lemma expired_ticket_released now db t d :
  In t (tickets db) ->
  Ticket.status t = Ticket.reserved ->
  Ticket.reservedAt t = Some d ->
  d < now - TTL ->
  In (setAvailable t) (tickets (ticketReleaseJob now db)).
Proof.
  intros Ht Hs Hd Hlt.
  assert (Hex : In t (expiredTickets now db)).
  { unfold expiredTickets, find. apply filter_In. split; [exact Ht|].
    unfold expiredAt. rewrite Hs, Hd. simpl. now apply Z.ltb_lt. }
  unfold ticketReleaseJob.
  destruct (expiredTickets now db) as [|e l] eqn:E; [contradiction|].
  simpl Nat.ltb. cbv iota.
  apply releaseNumbers_resets; [exact Ht|].
  now apply in_map.
Qed.

(** ** What a settled payment leaves behind *)

Lemma confirm_pending id db p :
  Payment_findById id db = Some p ->
  Payment.status p = Payment.Pending ->
  fst (confirm id db) = mkResponse 200 "Payment confirmed successfully"
  /\ users (snd (confirm id db)) = users db
  /\ tickets (snd (confirm id db))
     = updateMany (reservedAmong (Payment.selectedNumbers p)) setSold
                  (tickets db)
  /\ payments (snd (confirm id db))
     = updateOne (fun x => (Payment._id x =? id)%nat)
                 (setPaymentStatus Payment.Confirmed) (payments db)
  /\ raffles (snd (confirm id db))
     = match Raffle_findById (Payment.raffle p) db with
       | Some raffle =>
           let n := Z.of_nat (List.length (Payment.selectedNumbers p)) in
           updateOne (fun r => (Raffle._id r =? Payment.raffle p)%nat)
             (fun r =>
                Raffle.mk (Raffle._id r) (Raffle.totalTickets r)
                  (Raffle.soldTickets raffle + n)
                  (Raffle.reservedTickets raffle - n) (Raffle.active r))
             (raffles db)
       | None => raffles db
       end.
Proof.
  intros Hp Hs. pose proof (Payment_findById_id _ _ _ Hp) as Hid.
  unfold confirm, withTransaction, confirmBody, bind, get.
  rewrite Hp, Hs. simpl. unfold Raffle_findById. simpl.
  destruct (findOne _ (raffles db)) as [raffle|] eqn:Hr; simpl;
    rewrite Hid; repeat split; try reflexivity.
  apply findOne_some in Hr as [_ Hr]. apply Nat.eqb_eq in Hr.
  now rewrite Hr.
Qed.

Lemma reject_pending id db p :
  Payment_findById id db = Some p ->
  Payment.status p = Payment.Pending ->
  fst (reject id db) = mkResponse 200 "Payment rejected successfully"
  /\ users (snd (reject id db)) = users db
  /\ tickets (snd (reject id db))
     = updateMany (reservedAmong (Payment.selectedNumbers p)) setAvailable
                  (tickets db)
  /\ payments (snd (reject id db))
     = updateOne (fun x => (Payment._id x =? id)%nat)
                 (setPaymentStatus Payment.Rejected) (payments db)
  /\ raffles (snd (reject id db))
     = match Raffle_findById (Payment.raffle p) db with
       | Some raffle =>
           let n := Z.of_nat (List.length (Payment.selectedNumbers p)) in
           updateOne (fun r => (Raffle._id r =? Payment.raffle p)%nat)
             (fun r =>
                Raffle.mk (Raffle._id r) (Raffle.totalTickets r)
                  (Raffle.soldTickets r)
                  (Z.max 0 (Raffle.reservedTickets raffle - n))
                  (Raffle.active r))
             (raffles db)
       | None => raffles db
       end.
Proof.
  intros Hp Hs. pose proof (Payment_findById_id _ _ _ Hp) as Hid.
  unfold reject, withTransaction, rejectBody, bind, get.
  rewrite Hp, Hs. simpl. unfold Raffle_findById. simpl.
  destruct (findOne _ (raffles db)) as [raffle|] eqn:Hr; simpl;
    rewrite Hid; repeat split; try reflexivity.
  apply findOne_some in Hr as [_ Hr]. apply Nat.eqb_eq in Hr.
  now rewrite Hr.
Qed.

Lemma confirm_refused id db :
  paymentStatus id db <> Some Payment.Pending ->
  statusCode (fst (confirm id db)) = 400%nat /\ snd (confirm id db) = db.
Proof.
  unfold paymentStatus, confirm, withTransaction, confirmBody, bind, get.
  destruct (Payment_findById id db) as [p|]; simpl; [|auto].
  destruct (Payment.status p); simpl; auto. congruence.
Qed.

Lemma reject_refused id db :
  paymentStatus id db <> Some Payment.Pending ->
  statusCode (fst (reject id db)) = 400%nat /\ snd (reject id db) = db.
Proof.
  unfold paymentStatus, reject, withTransaction, rejectBody, bind, get.
  destruct (Payment_findById id db) as [p|]; simpl; [|auto].
  destruct (Payment.status p); simpl; auto. congruence.
Qed.

(** X1. The confirm route and the reject route answer 200 exactly when the
    payment exists and is Pending; on any other payment id they write
    nothing. *)
Theorem decision_accepted_iff_pending id db :
  (statusCode (fst (confirm id db)) = 200%nat
   <-> paymentStatus id db = Some Payment.Pending)
  /\ (statusCode (fst (reject id db)) = 200%nat
      <-> paymentStatus id db = Some Payment.Pending)
  /\ (paymentStatus id db = Some Payment.Pending
      \/ (snd (confirm id db) = db /\ snd (reject id db) = db)).
Proof.
  assert (Hdec : paymentStatus id db = Some Payment.Pending
                 \/ paymentStatus id db <> Some Payment.Pending).
  { destruct (paymentStatus id db) as [[]|]; auto; right; congruence. }
  repeat split.
  - intros H. destruct Hdec as [Hd|Hd]; [exact Hd|].
    destruct (confirm_refused id db Hd) as [H4 _]. congruence.
  - unfold paymentStatus. destruct (Payment_findById id db) as [p|] eqn:Hp;
      simpl; [|discriminate].
    intros [= Hs]. destruct (confirm_pending id db p Hp Hs) as [-> _].
    reflexivity.
  - intros H. destruct Hdec as [Hd|Hd]; [exact Hd|].
    destruct (reject_refused id db Hd) as [H4 _]. congruence.
  - unfold paymentStatus. destruct (Payment_findById id db) as [p|] eqn:Hp;
      simpl; [|discriminate].
    intros [= Hs]. destruct (reject_pending id db p Hp Hs) as [-> _].
    reflexivity.
  - destruct Hdec as [Hd|Hd]; [now left | right].
    split; [now apply confirm_refused | now apply reject_refused].
Qed.

Lemma reservedAmong_true numbers t :
  reservedAmong numbers t = true
  <-> Ticket.status t = Ticket.reserved /\ In (Ticket.ticketNumber t) numbers.
Proof.
  unfold reservedAmong. rewrite andb_true_iff, existsb_exists. split.
  - intros [(n & Hn & He) Hs]. apply Z.eqb_eq in He. subst n.
    split; [|exact Hn]. destruct (Ticket.status t); simpl in Hs; congruence.
  - intros [Hs Hn]. split.
    + exists (Ticket.ticketNumber t). split; [exact Hn | apply Z.eqb_refl].
    + now rewrite Hs.
Qed.

Lemma updateMany_hit {A} (q : A -> bool) u c x :
  In x c -> q x = true -> In (u x) (updateMany q u c).
Proof.
  intros Hx Hq. unfold updateMany. apply in_map_iff. exists x.
  now rewrite Hq.
Qed.

Lemma updateMany_miss {A} (q : A -> bool) u c x :
  In x c -> q x = false -> In x (updateMany q u c).
Proof.
  intros Hx Hq. unfold updateMany. apply in_map_iff. exists x.
  now rewrite Hq.
Qed.

Lemma Raffle_findById_updateOne id db r u :
  Raffle_findById id db = Some r ->
  Raffle._id (u r) = Raffle._id r ->
  findOne (fun x => (Raffle._id x =? id)%nat)
          (updateOne (fun x => (Raffle._id x =? id)%nat) u (raffles db))
  = Some (u r).
Proof.
  intros Hr Hu. apply findOne_updateOne; [exact Hr|].
  unfold Raffle_findById in Hr. apply findOne_some in Hr as [_ Hr].
  now rewrite Hu.
Qed.

(** X2. Confirming a Pending payment marks the payment Confirmed, turns
    into sold exactly the reserved tickets that carry one of its numbers
    (owner and reservation date kept), leaves every other ticket as it
    was, and moves the length of the number list from [reservedTickets]
    to [soldTickets] of the payment's raffle. *)
Theorem confirm_effect id db p :
  Payment_findById id db = Some p ->
  Payment.status p = Payment.Pending ->
  let after := snd (confirm id db) in
  let n := Z.of_nat (List.length (Payment.selectedNumbers p)) in
  Payment_findById id after = Some (setPaymentStatus Payment.Confirmed p)
  /\ (forall t, In t (tickets db) ->
        Ticket.status t = Ticket.reserved ->
        In (Ticket.ticketNumber t) (Payment.selectedNumbers p) ->
        In (setSold t) (tickets after))
  /\ (forall t, In t (tickets db) ->
        Ticket.status t <> Ticket.reserved
        \/ ~ In (Ticket.ticketNumber t) (Payment.selectedNumbers p) ->
        In t (tickets after))
  /\ List.length (tickets after) = List.length (tickets db)
  /\ (forall r, Raffle_findById (Payment.raffle p) db = Some r ->
        Raffle_findById (Payment.raffle p) after
        = Some (Raffle.mk (Raffle._id r) (Raffle.totalTickets r)
                          (Raffle.soldTickets r + n)
                          (Raffle.reservedTickets r - n)
                          (Raffle.active r))).
Proof.
  intros Hp Hs after n.
  destruct (confirm_pending id db p Hp Hs) as (_ & _ & Ht & Hpay & Hr).
  subst after. repeat split.
  - unfold Payment_findById. rewrite Hpay.
    apply findOne_updateOne; [exact Hp|].
    simpl. apply Nat.eqb_eq. now apply Payment_findById_id in Hp.
  - intros t Hin Hres Hn. rewrite Ht. apply updateMany_hit; [exact Hin|].
    now apply reservedAmong_true.
  - intros t Hin Hnot. rewrite Ht. apply updateMany_miss; [exact Hin|].
    destruct (reservedAmong (Payment.selectedNumbers p) t) eqn:E;
      [|reflexivity].
    apply reservedAmong_true in E. tauto.
  - rewrite Ht. unfold updateMany. apply length_map.
  - intros r Hfind. unfold Raffle_findById at 1. rewrite Hr, Hfind.
    now apply (Raffle_findById_updateOne _ db r).
Qed.

Lemma confirm_effect_witness :
  let db := run oneReservation emptyDB in
  Raffle_findById 1%nat (snd (confirm 3%nat db))
  = Some (Raffle.mk 1%nat 3 2 0 true).
Proof.
  intros db.
  destruct (confirm_effect 3%nat db
              (Payment.mk 3%nat 2%nat 1%nat [1; 2] "Zelle"
                          "/uploads/proofs/proof.png" Payment.Pending)
              eq_refl eq_refl) as (_ & _ & _ & _ & Hr).
  exact (Hr (Raffle.mk 1%nat 3 0 2 true) eq_refl).
Defined.

(** X3. Rejecting a Pending payment marks the payment Rejected, releases
    exactly the reserved tickets that carry one of its numbers (owner and
    date cleared), leaves every other ticket as it was, and lowers
    [reservedTickets] of the payment's raffle by the length of the number
    list, never below zero; [soldTickets] is kept. *)
Theorem reject_effect id db p :
  Payment_findById id db = Some p ->
  Payment.status p = Payment.Pending ->
  let after := snd (reject id db) in
  let n := Z.of_nat (List.length (Payment.selectedNumbers p)) in
  Payment_findById id after = Some (setPaymentStatus Payment.Rejected p)
  /\ (forall t, In t (tickets db) ->
        Ticket.status t = Ticket.reserved ->
        In (Ticket.ticketNumber t) (Payment.selectedNumbers p) ->
        In (Ticket.mk (Ticket.ticketNumber t) (Ticket.raffleId t)
                      Ticket.available None None)
           (tickets after))
  /\ (forall t, In t (tickets db) ->
        Ticket.status t <> Ticket.reserved
        \/ ~ In (Ticket.ticketNumber t) (Payment.selectedNumbers p) ->
        In t (tickets after))
  /\ List.length (tickets after) = List.length (tickets db)
  /\ (forall r, Raffle_findById (Payment.raffle p) db = Some r ->
        exists r',
          Raffle_findById (Payment.raffle p) after = Some r'
          /\ Raffle.reservedTickets r'
             = Z.max 0 (Raffle.reservedTickets r - n)
          /\ 0 <= Raffle.reservedTickets r'
          /\ Raffle.soldTickets r' = Raffle.soldTickets r
          /\ Raffle.active r' = Raffle.active r).
Proof.
  intros Hp Hs after n.
  destruct (reject_pending id db p Hp Hs) as (_ & _ & Ht & Hpay & Hr).
  subst after. repeat split.
  - unfold Payment_findById. rewrite Hpay.
    apply findOne_updateOne; [exact Hp|].
    simpl. apply Nat.eqb_eq. now apply Payment_findById_id in Hp.
  - intros t Hin Hres Hn. rewrite Ht.
    apply (updateMany_hit _ setAvailable); [exact Hin|].
    now apply reservedAmong_true.
  - intros t Hin Hnot. rewrite Ht. apply updateMany_miss; [exact Hin|].
    destruct (reservedAmong (Payment.selectedNumbers p) t) eqn:E;
      [|reflexivity].
    apply reservedAmong_true in E. tauto.
  - rewrite Ht. unfold updateMany. apply length_map.
  - intros r Hfind. eexists. split.
    + unfold Raffle_findById at 1. rewrite Hr, Hfind.
      now apply (Raffle_findById_updateOne _ db r).
    + simpl. repeat split. lia.
Qed.

Lemma reject_effect_witness :
  let db := run oneReservation emptyDB in
  statusOf 1%nat 1 (snd (reject 3%nat db)) = Some Ticket.available
  /\ exists r', Raffle_findById 1%nat (snd (reject 3%nat db)) = Some r'
                /\ 0 <= Raffle.reservedTickets r'.
Proof.
  intros db.
  destruct (reject_effect 3%nat db
              (Payment.mk 3%nat 2%nat 1%nat [1; 2] "Zelle"
                          "/uploads/proofs/proof.png" Payment.Pending)
              eq_refl eq_refl) as (_ & _ & _ & _ & Hr).
  destruct (Hr (Raffle.mk 1%nat 3 0 2 true) eq_refl)
    as (r' & Hf & _ & H0 & _).
  split; [reflexivity|]. exists r'. auto.
Defined.

(** ** Documents that stay *)

Lemma findOne_app_l {A} (q : A -> bool) c d x :
  findOne q c = Some x -> findOne q (c ++ d)%list = Some x.
Proof.
  induction c as [|y c IH]; simpl; [discriminate|].
  destruct (q y); auto.
Qed.

Lemma findOne_updateOne_other {A} (q q' : A -> bool) u c :
  (forall x, q' x = true -> q x = false /\ q (u x) = false) ->
  findOne q (updateOne q' u c) = findOne q c.
Proof.
  intros H. unfold updateOne. induction c as [|y c IH]; simpl; [reflexivity|].
  destruct (q' y) eqn:Hy.
  - destruct (H y Hy) as [H1 H2]. simpl. now rewrite H1, H2.
  - destruct (findOneAndUpdate q' u c) as [r c']. simpl in *.
    now rewrite IH.
Qed.

Lemma findOneAndUpdate_keeps {A} (q : A -> bool) u c x :
  In x c -> q x = false -> In x (snd (findOneAndUpdate q u c)).
Proof.
  induction c as [|y c IH]; simpl; [auto|].
  intros [->|Hx] Hq.
  - rewrite Hq. destruct (findOneAndUpdate q u c). simpl. auto.
  - destruct (q y); simpl; [auto|].
    specialize (IH Hx Hq). destruct (findOneAndUpdate q u c). simpl in *. auto.
Qed.

(** What POST /create-and-pay leaves in the users, payments and tickets
    collections: nothing new, or one user and one Pending payment and the
    tickets of the reservation loop. *)
Lemma createAndPay_writes now req db :
  (statusCode (fst (createAndPay now req db)) = 400%nat
   /\ snd (createAndPay now req db) = db)
  \/ exists activeRaffle numbers,
       findOne Raffle.active (raffles db) = Some activeRaffle
       /\ PayReq.selectedNumbers req = Some numbers
       /\ statusCode (fst (createAndPay now req db)) = 201%nat
       /\ users (snd (createAndPay now req db))
          = (users db ++ [User.mk (nextId db) (PayReq.email req)])%list
       /\ payments (snd (createAndPay now req db))
          = (payments db
             ++ [Payment.mk (S (nextId db)) (nextId db)
                   (Raffle._id activeRaffle) numbers (PayReq.method req)
                   (match PayReq.file req with
                    | Some filename => "/uploads/proofs/" ++ filename
                    | None => ""
                    end) Payment.Pending])%list
       /\ tickets (snd (createAndPay now req db))
          = snd (claimAll now (nextId db) (Raffle._id activeRaffle) numbers
                          (tickets db))
       /\ unavailableIn
            (claimAll now (nextId db) (Raffle._id activeRaffle) numbers
                      (tickets db)) = []
       /\ raffles (snd (createAndPay now req db))
          = updateOne
              (fun r => (Raffle._id r =? Raffle._id activeRaffle)%nat)
              (fun r =>
                 Raffle.mk (Raffle._id r) (Raffle.totalTickets r)
                   (Raffle.soldTickets r)
                   (Raffle.reservedTickets activeRaffle
                    + Z.of_nat (List.length numbers))
                   (Raffle.active r))
              (raffles db).
Proof.
  remember (createAndPay now req db) as res eqn:R.
  unfold createAndPay, withTransaction, createAndPayBody in R.
  unfold bind at 1, get in R.
  destruct (findOne _ (users db)); [subst res; left; split; reflexivity|].
  destruct (findOne Raffle.active (raffles db)) as [activeRaffle|];
    [|subst res; left; split; reflexivity].
  unfold bind at 1, newObjectId in R. unfold bind at 1, setUsers in R.
  destruct (PayReq.selectedNumbers req) as [numbers|];
    [|subst res; left; split; reflexivity].
  unfold bind at 1 in R. rewrite reserveTickets_claimAll in R.
  simpl tickets in R. simpl nextId in R.
  destruct (unavailableIn _) as [|n un] eqn:E; [|subst res; left; split; reflexivity].
  simpl Nat.ltb in R. cbv iota in R.
  unfold bind at 1, newObjectId in R. simpl in R.
  destruct (validPayment _); simpl in R; subst res;
    [|left; split; reflexivity].
  right. exists activeRaffle, numbers. simpl. repeat split; auto.
Qed.

Lemma createRaffle_keeps req db :
  users (snd (createRaffle req db)) = users db
  /\ payments (snd (createRaffle req db)) = payments db.
Proof.
  unfold createRaffle, withTransaction, createRaffleBody.
  destruct (CreateReq.price req) as [price|]; [|auto].
  destruct (CreateReq.totalTickets req) as [total|]; [|auto].
  destruct (CreateReq.file req); [|auto].
  destruct (_ || _)%bool; [auto|].
  destruct (price <=? 0); [auto|].
  destruct (total <=? 0); auto.
Qed.

Lemma updateRaffle_keeps id req db :
  users (snd (updateRaffle id req db)) = users db
  /\ payments (snd (updateRaffle id req db)) = payments db
  /\ tickets (snd (updateRaffle id req db)) = tickets db.
Proof.
  unfold updateRaffle.
  destruct (Raffle_findById id db) as [raffle|]; [|auto].
  assert (H : users (deactivateOthers raffle req db) = users db
              /\ payments (deactivateOthers raffle req db) = payments db
              /\ tickets (deactivateOthers raffle req db) = tickets db).
  { unfold deactivateOthers. destruct (UpdateReq.active req) as [v|]; [|auto].
    destruct (truthy v); auto. }
  destruct (UpdateReq.active req) as [v|]; [|exact H].
  destruct (castBoolean v); exact H.
Qed.

Lemma deleteRaffle_keeps id db :
  users (snd (deleteRaffle id db)) = users db
  /\ payments (snd (deleteRaffle id db)) = payments db.
Proof.
  unfold deleteRaffle.
  destruct (Raffle_findById id db) as [raffle|]; [|auto].
  destruct (0 <? _)%nat; auto.
Qed.

(** One operation keeps a payment document, or takes it from Pending to
    Confirmed or Rejected. *)
Lemma exec_payment op db id p :
  Payment_findById id db = Some p ->
  Payment_findById id (exec op db) = Some p
  \/ (Payment.status p = Payment.Pending
      /\ exists s, Payment_findById id (exec op db)
                   = Some (setPaymentStatus s p)).
Proof.
  intros Hp. destruct op as [now req|id'|id'|req|id' req|id'|now]; simpl.
  - destruct (createAndPay_writes now req db)
      as [[_ ->]|(r & ns & _ & _ & _ & _ & Hpay & _)]; [now left|].
    left. unfold Payment_findById. rewrite Hpay. now apply findOne_app_l.
  - destruct (paymentStatus id' db) as [[]|] eqn:Hst;
      try (destruct (confirm_refused id' db) as [_ ->];
           [congruence | now left]).
    unfold paymentStatus in Hst.
    destruct (Payment_findById id' db) as [p0|] eqn:Hp0; [|discriminate].
    injection Hst as Hst.
    destruct (confirm_pending id' db p0 Hp0 Hst) as (_ & _ & _ & Hpay & _).
    pose proof (Payment_findById_id _ _ _ Hp) as Hid.
    unfold Payment_findById in *. rewrite Hpay.
    destruct (Nat.eq_dec id' id) as [->|Hne].
    + right. assert (p0 = p) by congruence. subst p0.
      split; [exact Hst|]. exists Payment.Confirmed.
      apply findOne_updateOne; [exact Hp|].
      simpl. now apply Nat.eqb_eq.
    + left. rewrite findOne_updateOne_other; [exact Hp|].
      intros x Hx. apply Nat.eqb_eq in Hx. simpl. rewrite Hx.
      split; now apply Nat.eqb_neq.
  - destruct (paymentStatus id' db) as [[]|] eqn:Hst;
      try (destruct (reject_refused id' db) as [_ ->];
           [congruence | now left]).
    unfold paymentStatus in Hst.
    destruct (Payment_findById id' db) as [p0|] eqn:Hp0; [|discriminate].
    injection Hst as Hst.
    destruct (reject_pending id' db p0 Hp0 Hst) as (_ & _ & _ & Hpay & _).
    pose proof (Payment_findById_id _ _ _ Hp) as Hid.
    unfold Payment_findById in *. rewrite Hpay.
    destruct (Nat.eq_dec id' id) as [->|Hne].
    + right. assert (p0 = p) by congruence. subst p0.
      split; [exact Hst|]. exists Payment.Rejected.
      apply findOne_updateOne; [exact Hp|].
      simpl. now apply Nat.eqb_eq.
    + left. rewrite findOne_updateOne_other; [exact Hp|].
      intros x Hx. apply Nat.eqb_eq in Hx. simpl. rewrite Hx.
      split; now apply Nat.eqb_neq.
  - left. unfold Payment_findById.
    destruct (createRaffle_keeps req db) as [_ ->]. exact Hp.
  - left. unfold Payment_findById.
    destruct (updateRaffle_keeps id' req db) as (_ & -> & _). exact Hp.
  - left. unfold Payment_findById.
    destruct (deleteRaffle_keeps id' db) as [_ ->]. exact Hp.
  - left. unfold Payment_findById.
    destruct (ticketReleaseJob_raffles now db) as [_ ->]. exact Hp.
Qed.

(** X4. Along any run of the server a payment is never deleted and keeps
    its buyer, its raffle and its snapshot of selected numbers; once it
    has left the Pending status the whole document never changes again. *)
Theorem payment_snapshot_is_kept ops db id p :
  Payment_findById id db = Some p ->
  exists p',
    Payment_findById id (run ops db) = Some p'
    /\ Payment.user p' = Payment.user p
    /\ Payment.raffle p' = Payment.raffle p
    /\ Payment.selectedNumbers p' = Payment.selectedNumbers p
    /\ (Payment.status p <> Payment.Pending -> p' = p).
Proof.
  revert db p. induction ops as [|op ops IH]; intros db p Hp; simpl.
  - exists p. auto.
  - destruct (exec_payment op db id p Hp) as [H|(Hs & s & H)].
    + apply (IH _ _ H).
    + destruct (IH _ _ H) as (p' & Hf & Hu & Hr & Hn & _).
      exists p'. repeat split; auto. congruence.
Qed.

Lemma payment_snapshot_is_kept_witness :
  let db := run (oneReservation ++ [Confirm 3%nat])%list emptyDB in
  exists p',
    Payment_findById 3%nat
      (run [Reject 3%nat; ReleaseJob (25 * hour); Confirm 3%nat] db)
    = Some p'
    /\ Payment.status p' = Payment.Confirmed
    /\ Payment.selectedNumbers p' = [1; 2].
Proof.
  intros db.
  destruct (payment_snapshot_is_kept
              [Reject 3%nat; ReleaseJob (25 * hour); Confirm 3%nat] db 3%nat
              (Payment.mk 3%nat 2%nat 1%nat [1; 2] "Zelle"
                          "/uploads/proofs/proof.png" Payment.Confirmed)
              eq_refl) as (p' & Hf & _ & _ & _ & Hfin).
  exists p'. split; [exact Hf|].
  rewrite Hfin; [split; reflexivity | discriminate].
Defined.

Lemma exec_user op db u : In u (users db) -> In u (users (exec op db)).
Proof.
  intros Hu. destruct op as [now req|id'|id'|req|id' req|id'|now]; simpl.
  - destruct (createAndPay_writes now req db)
      as [[_ ->]|(r & ns & _ & _ & _ & Hus & _)]; [exact Hu|].
    rewrite Hus. apply in_or_app. now left.
  - destruct (paymentStatus id' db) as [[]|] eqn:Hst;
      try (destruct (confirm_refused id' db) as [_ ->];
           [congruence | exact Hu]).
    unfold paymentStatus in Hst.
    destruct (Payment_findById id' db) as [p0|] eqn:Hp0; [|discriminate].
    injection Hst as Hst.
    destruct (confirm_pending id' db p0 Hp0 Hst) as (_ & -> & _). exact Hu.
  - destruct (paymentStatus id' db) as [[]|] eqn:Hst;
      try (destruct (reject_refused id' db) as [_ ->];
           [congruence | exact Hu]).
    unfold paymentStatus in Hst.
    destruct (Payment_findById id' db) as [p0|] eqn:Hp0; [|discriminate].
    injection Hst as Hst.
    destruct (reject_pending id' db p0 Hp0 Hst) as (_ & -> & _). exact Hu.
  - destruct (createRaffle_keeps req db) as [-> _]. exact Hu.
  - destruct (updateRaffle_keeps id' req db) as (-> & _). exact Hu.
  - destruct (deleteRaffle_keeps id' db) as [-> _]. exact Hu.
  - unfold ticketReleaseJob. destruct (0 <? _)%nat; exact Hu.
Qed.

Lemma run_user ops db u : In u (users db) -> In u (users (run ops db)).
Proof.
  revert db. induction ops as [|op ops IH]; intros db Hu; simpl; [exact Hu|].
  apply IH. now apply exec_user.
Qed.

Lemma createAndPay_known_email now req db u :
  In u (users db) -> User.email u = PayReq.email req ->
  createAndPay now req db
  = (mkResponse 400 "User with this email already exists", db).
Proof.
  intros Hin He.
  destruct (findOne_exists
              (fun u => (User.email u =? PayReq.email req)%string)
              (users db) u Hin) as [y Hy].
  { now apply String.eqb_eq. }
  unfold createAndPay, withTransaction, createAndPayBody.
  unfold bind at 1, get. now rewrite Hy.
Qed.

(** X5. An email address buys once: after a create-and-pay request has
    succeeded, every later create-and-pay request with the same email,
    after any run of the server, is refused because the user exists, and
    writes nothing.  No operation removes a user. *)
Theorem email_buys_once now req db ops now' req' :
  statusCode (fst (createAndPay now req db)) = 201%nat ->
  PayReq.email req' = PayReq.email req ->
  let later := run ops (snd (createAndPay now req db)) in
  createAndPay now' req' later
  = (mkResponse 400 "User with this email already exists", later).
Proof.
  intros Hok He later.
  apply (createAndPay_known_email now' req' later
           (User.mk (nextId db) (PayReq.email req))); [|now rewrite He].
  apply run_user.
  destruct (createAndPay_writes now req db)
    as [[H400 _]|(r & ns & _ & _ & _ & Hus & _)]; [congruence|].
  rewrite Hus. apply in_or_app. right. simpl. auto.
Qed.

Lemma email_buys_once_witness :
  let db := run [CreateRaffle (raffleOf 3)] emptyDB in
  let later :=
    run [Reject 3%nat] (snd (createAndPay 0 (purchase "a@x" [1; 2]) db)) in
  createAndPay hour (purchase "a@x" [3]) later
  = (mkResponse 400 "User with this email already exists", later).
Proof.
  intros db later.
  apply (email_buys_once 0 (purchase "a@x" [1; 2]) db [Reject 3%nat]
                         hour (purchase "a@x" [3])); reflexivity.
Defined.

(** ** Sold tickets *)

Lemma claimAll_keeps now userId raffleId numbers ts t :
  In t ts -> Ticket.status t <> Ticket.available ->
  In t (snd (claimAll now userId raffleId numbers ts)).
Proof.
  revert ts. induction numbers as [|n rest IH]; intros ts Hin Hs; [exact Hin|].
  simpl.
  assert (Hk : In t (snd (findOneAndUpdate (claimable n raffleId)
                            (setReserved now userId) ts))).
  { apply findOneAndUpdate_keeps; [exact Hin|].
    unfold claimable. destruct (Ticket.status t); simpl;
      [congruence | now rewrite andb_false_r | now rewrite andb_false_r]. }
  destruct (findOneAndUpdate _ _ ts) as [ticket ts1]. simpl in Hk.
  specialize (IH ts1 Hk Hs).
  destruct (claimAll now userId raffleId rest ts1) as [[cl un] ts2].
  destruct ticket; exact IH.
Qed.



(** ** The ticket inventory *)

Lemma count_by_key (id : ObjectId) ts :
  countDocuments (fun t => (Ticket.raffleId t =? id)%nat) ts
  = List.length (filter (fun k => (fst k =? id)%nat) (map ticketKey ts)).
Proof.
  unfold countDocuments. induction ts as [|t ts IH]; simpl; [reflexivity|].
  destruct (Ticket.raffleId t =? id)%nat; simpl; now rewrite IH.
Qed.

Lemma NoDup_map_filter {A B} (f : A -> B) (p : A -> bool) l :
  NoDup (map f l) -> NoDup (map f (filter p l)).
Proof.
  induction l as [|x l IH]; simpl; [auto|].
  intros H. inversion H as [|? ? Hx Hl]; subst.
  destruct (p x); simpl; [|auto].
  constructor; [|auto].
  intros Hin. apply Hx. apply in_map_iff in Hin as (y & <- & Hy).
  apply filter_In in Hy as [Hy _]. now apply in_map.
Qed.

Lemma deleteOne_other_id (k : ObjectId) rs r :
  NoDup (map Raffle._id rs) ->
  In r (deleteOne (fun x => (Raffle._id x =? k)%nat) rs) ->
  Raffle._id r <> k.
Proof.
  induction rs as [|x rs IH]; simpl; [contradiction|].
  intros Hnd. inversion Hnd as [|? ? Hx Hrs]; subst.
  destruct (Raffle._id x =? k)%nat eqn:E.
  - apply Nat.eqb_eq in E. subst k. intros Hin Heq.
    apply Hx. rewrite <- Heq. now apply in_map.
  - intros [<-|Hin]; [now apply Nat.eqb_neq | auto].
Qed.

Lemma NoDup_map_injective {A B} (f : A -> B) l :
  (forall a b, f a = f b -> a = b) -> NoDup l -> NoDup (map f l).
Proof.
  intros Hf Hl. apply NoDup_map_NoDup_ForallPairs; [|exact Hl].
  intros a b _ _. apply Hf.
Qed.

Lemma filter_none {A} (p : A -> bool) l :
  (forall x, In x l -> p x = false) -> filter p l = [].
Proof.
  induction l as [|x l IH]; simpl; intros H; [reflexivity|].
  rewrite (H x (or_introl eq_refl)). apply IH. intros y Hy. apply H. now right.
Qed.

Lemma filter_all {A} (p : A -> bool) l :
  (forall x, In x l -> p x = true) -> filter p l = l.
Proof.
  intros H. apply forallb_filter_id, forallb_forall, H.
Qed.

Lemma ticketNumbersUpTo_complete n k :
  1 <= k <= n -> In k (ticketNumbersUpTo n).
Proof.
  intros Hk. unfold ticketNumbersUpTo. apply in_map_iff.
  exists (Z.to_nat (k - 1)). split; [lia|]. apply in_seq. lia.
Qed.

Lemma ticketNumbersUpTo_NoDup n : NoDup (ticketNumbersUpTo n).
Proof.
  unfold ticketNumbersUpTo.
  apply NoDup_map_injective; [|apply seq_NoDup].
  intros a b. lia.
Qed.

Lemma ticketNumbersUpTo_length n :
  0 < n -> Z.of_nat (List.length (ticketNumbersUpTo n)) = n.
Proof.
  intros Hn. unfold ticketNumbersUpTo. rewrite length_map, length_seq. lia.
Qed.

Lemma inventory_sameShape db db' :
  sameShape db db' -> inventory db -> inventory db'.
Proof.
  intros (Ht & Hr & _ & _) [I1 I2 I3]. constructor.
  - now rewrite Ht.
  - intros r n Hin Hn. rewrite Ht.
    apply (in_map raffleShape) in Hin. rewrite Hr in Hin.
    apply in_map_iff in Hin as (r0 & Hs & Hin0).
    injection Hs as Hs1 Hs2. rewrite <- Hs1. apply I2; [exact Hin0 | lia].
  - intros r Hin. rewrite count_by_key, Ht, <- count_by_key.
    apply (in_map raffleShape) in Hin. rewrite Hr in Hin.
    apply in_map_iff in Hin as (r0 & Hs & Hin0).
    injection Hs as Hs1 Hs2. rewrite <- Hs1, <- Hs2. now apply I3.
Qed.

Lemma createRaffle_inventory req db :
  wellFormed db -> inventory db -> inventory (snd (createRaffle req db)).
Proof.
  intros [W1 W2 _ _ _] I. unfold createRaffle, withTransaction, createRaffleBody.
  destruct (CreateReq.price req) as [price|]; [|exact I].
  destruct (CreateReq.totalTickets req) as [total|]; [|exact I].
  destruct (CreateReq.file req); [|exact I].
  destruct (_ || _)%bool; [exact I|].
  destruct (price <=? 0); [exact I|].
  destruct (total <=? 0) eqn:Htot; [exact I|].
  apply Z.leb_gt in Htot.
  destruct I as [I1 I2 I3].
  unfold bind, setRaffles, setTickets, newObjectId, ret. simpl.
  assert (Hnew : map ticketKey
                   (map (fun n => Ticket.mk n (nextId db) Ticket.available
                                            None None)
                        (ticketNumbersUpTo total))
                 = map (fun n => (nextId db, n)) (ticketNumbersUpTo total)).
  { rewrite map_map. reflexivity. }
  constructor; simpl.
  - rewrite map_app, Hnew. apply NoDup_app; [exact I1 | |].
    + apply NoDup_map_injective; [|apply ticketNumbersUpTo_NoDup].
      intros a b. congruence.
    + intros k Hk Hk'. apply in_map_iff in Hk as (t & <- & Ht).
      apply in_map_iff in Hk' as (n & Hn & _).
      specialize (W2 t Ht). unfold ticketKey in Hn.
      injection Hn as Hn _. lia.
  - intros r n Hin Hn. rewrite map_app, Hnew. apply in_or_app.
    apply in_app_or in Hin as [Hin|[<-|[]]].
    + left. apply updateMany_In in Hin as (x & Hx & ->). simpl in *.
      now apply I2.
    + right. simpl in *. apply in_map. now apply ticketNumbersUpTo_complete.
  - intros r Hin. unfold countDocuments. rewrite filter_app, length_app.
    apply in_app_or in Hin as [Hin|[<-|[]]].
    + apply updateMany_In in Hin as (x & Hx & ->). simpl.
      specialize (I3 x Hx). unfold countDocuments in I3.
      specialize (W1 x Hx).
      replace (filter _ (map _ (ticketNumbersUpTo total))) with (@nil Ticket.t);
        [simpl; lia|].
      symmetry. apply filter_none.
      intros t Ht. apply in_map_iff in Ht as (k & <- & _). simpl.
      apply Nat.eqb_neq. lia.
    + simpl.
      replace (filter _ (tickets db)) with (@nil Ticket.t).
      * simpl. rewrite filter_all.
        -- rewrite length_map. now apply ticketNumbersUpTo_length.
        -- intros t Ht.
           apply in_map_iff in Ht as (k & <- & _). simpl. apply Nat.eqb_refl.
      * symmetry. apply filter_none.
        intros t Ht. specialize (W2 t Ht).
        apply Nat.eqb_neq. lia.
Qed.

Lemma updateRaffle_inventory id req db :
  inventory db -> inventory (snd (updateRaffle id req db)).
Proof.
  intros [I1 I2 I3].
  destruct (updateRaffle_keeps id req db) as (_ & _ & Ht).
  assert (Hs : map raffleShape (raffles (snd (updateRaffle id req db)))
               = map raffleShape (raffles db)).
  { unfold updateRaffle.
    destruct (Raffle_findById id db) as [raffle|]; [|reflexivity].
    destruct (deactivateOthers_shape raffle req db) as (Hs & _ & _).
    destruct (UpdateReq.active req) as [v|]; [|exact Hs].
    destruct (castBoolean v); [|exact Hs].
    simpl. now rewrite (map_updateOne raffleShape). }
  constructor.
  - now rewrite Ht.
  - intros r n Hin Hn. rewrite Ht.
    apply (in_map raffleShape) in Hin. rewrite Hs in Hin.
    apply in_map_iff in Hin as (r0 & Hr & Hin0).
    injection Hr as Hr1 Hr2. rewrite <- Hr1. apply I2; [exact Hin0 | lia].
  - intros r Hin. rewrite Ht.
    apply (in_map raffleShape) in Hin. rewrite Hs in Hin.
    apply in_map_iff in Hin as (r0 & Hr & Hin0).
    injection Hr as Hr1 Hr2. rewrite <- Hr1, <- Hr2. now apply I3.
Qed.

Lemma deleteRaffle_inventory id db :
  wellFormed db -> inventory db -> inventory (snd (deleteRaffle id db)).
Proof.
  intros [_ _ W3 _ _] I. unfold deleteRaffle.
  destruct (Raffle_findById id db) as [raffle|] eqn:Hf; [|exact I].
  destruct (0 <? _)%nat; [exact I|].
  assert (Hid : Raffle._id raffle = id).
  { unfold Raffle_findById in Hf. apply findOne_some in Hf as [_ Hf].
    now apply Nat.eqb_eq. }
  destruct I as [I1 I2 I3]. rewrite Hid. constructor; simpl.
  - now apply NoDup_map_filter.
  - intros r n Hin Hn.
    pose proof (deleteOne_other_id id _ r W3 Hin) as Hne.
    apply deleteOne_In in Hin.
    specialize (I2 r n Hin Hn). apply in_map_iff in I2 as (t & Hk & Ht).
    apply in_map_iff. exists t. split; [exact Hk|].
    unfold deleteMany. apply filter_In. split; [exact Ht|].
    unfold ticketKey in Hk. injection Hk as Hk _.
    apply negb_true_iff, Nat.eqb_neq. congruence.
  - intros r Hin.
    pose proof (deleteOne_other_id id _ r W3 Hin) as Hne.
    apply deleteOne_In in Hin. rewrite <- (I3 r Hin). f_equal.
    unfold countDocuments, deleteMany. f_equal.
    clear -Hne. induction (tickets db) as [|t ts IH]; simpl; [reflexivity|].
    destruct (Ticket.raffleId t =? id)%nat eqn:E; simpl.
    + apply Nat.eqb_eq in E.
      replace (Ticket.raffleId t =? Raffle._id r)%nat with false; [exact IH|].
      symmetry. apply Nat.eqb_neq. congruence.
    + now rewrite IH.
Qed.

Lemma exec_inventory op db :
  wellFormed db -> inventory db -> inventory (exec op db).
Proof.
  intros W I. destruct op; simpl.
  - eapply inventory_sameShape; [apply createAndPay_sameShape | exact I].
  - eapply inventory_sameShape; [apply confirm_sameShape | exact I].
  - eapply inventory_sameShape; [apply reject_sameShape | exact I].
  - now apply createRaffle_inventory.
  - now apply updateRaffle_inventory.
  - now apply deleteRaffle_inventory.
  - eapply inventory_sameShape; [apply ticketReleaseJob_sameShape | exact I].
Qed.

Lemma run_invariants ops db :
  wellFormed db -> inventory db ->
  wellFormed (run ops db) /\ inventory (run ops db).
Proof.
  revert db. induction ops as [|op ops IH]; intros db W I; simpl; [auto|].
  apply IH; [now apply exec_wellFormed | now apply exec_inventory].
Qed.

Lemma emptyDB_inventory : inventory emptyDB.
Proof.
  constructor; simpl; [constructor | contradiction | contradiction].
Qed.

Lemma reached_invariants ops :
  wellFormed (run ops emptyDB) /\ inventory (run ops emptyDB).
Proof.
  apply run_invariants; [apply emptyDB_wellFormed | apply emptyDB_inventory].
Qed.

Lemma count_by_status (id : ObjectId) ts :
  countDocuments (fun t => (Ticket.raffleId t =? id)%nat) ts
  = (countDocuments
       (fun t => (Ticket.raffleId t =? id)%nat
                 && Ticket.Status_eqb (Ticket.status t) Ticket.available) ts
     + countDocuments
         (fun t => (Ticket.raffleId t =? id)%nat
                   && Ticket.Status_eqb (Ticket.status t) Ticket.reserved) ts
     + countDocuments
         (fun t => (Ticket.raffleId t =? id)%nat
                   && Ticket.Status_eqb (Ticket.status t) Ticket.sold) ts)%nat.
Proof.
  unfold countDocuments. induction ts as [|t ts IH]; simpl; [reflexivity|].
  destruct (Ticket.raffleId t =? id)%nat; simpl; [|exact IH].
  destruct (Ticket.status t); simpl; lia.
Qed.

(** X7. In every state the server reaches, the tickets are the inventory
    of the raffles: no two ticket documents share raffle and number; a
    raffle has a ticket numbered n exactly for the n of 1..totalTickets;
    and its available, reserved and sold tickets add up to
    [totalTickets]. *)
Theorem raffle_inventory ops :
  let db := run ops emptyDB in
  NoDup (map ticketKey (tickets db))
  /\ forall r, In r (raffles db) ->
       (forall n,
          1 <= n <= Raffle.totalTickets r
          <-> exists t, In t (tickets db)
                        /\ Ticket.raffleId t = Raffle._id r
                        /\ Ticket.ticketNumber t = n)
       /\ statusCount Ticket.available (Raffle._id r) db
          + statusCount Ticket.reserved (Raffle._id r) db
          + statusCount Ticket.sold (Raffle._id r) db
          = Raffle.totalTickets r.
Proof.
  intros db. destruct (reached_invariants ops) as [W [I1 I2 I3]].
  fold db in W, I1, I2, I3. split; [exact I1|].
  intros r Hr. split.
  - intros n. split.
    + intros Hn. specialize (I2 r n Hr Hn).
      apply in_map_iff in I2 as (t & Hk & Ht).
      unfold ticketKey in Hk. injection Hk as Hk1 Hk2. eauto.
    + intros (t & Ht & Hid & <-). now apply (wf_in_range db W t r).
  - rewrite <- (I3 r Hr), count_by_status. unfold statusCount. lia.
Qed.

Lemma raffle_inventory_witness :
  let db := run oneReservation emptyDB in
  statusCount Ticket.available 1%nat db
  + statusCount Ticket.reserved 1%nat db
  + statusCount Ticket.sold 1%nat db = 3.
Proof.
  intros db.
  destruct (raffle_inventory oneReservation) as [_ H].
  destruct (H (Raffle.mk 1%nat 3 0 2 true)) as [_ Hsum];
    [simpl; auto | exact Hsum].
Defined.

(** ** When a reservation succeeds *)

Lemma NoDup_map_eq {A B} (f : A -> B) l a b :
  NoDup (map f l) -> In a l -> In b l -> f a = f b -> a = b.
Proof.
  induction l as [|x l IH]; simpl; [contradiction|].
  intros H. inversion H as [|? ? Hx Hl]; subst.
  intros [->|Ha] [->|Hb] He; auto.
  - exfalso. apply Hx. rewrite He. now apply in_map.
  - exfalso. apply Hx. rewrite <- He. now apply in_map.
Qed.

Lemma findOneAndUpdate_result_In {A} (q : A -> bool) u c y :
  fst (findOneAndUpdate q u c) = Some y ->
  In y (snd (findOneAndUpdate q u c)).
Proof.
  induction c as [|x c IH]; simpl; [discriminate|].
  destruct (q x).
  - simpl. intros [= <-]. auto.
  - destruct (findOneAndUpdate q u c) as [r c']. simpl in *. auto.
Qed.

Lemma claimAll_lengths now userId raffleId numbers ts :
  (List.length (claimedIn (claimAll now userId raffleId numbers ts))
   + List.length (unavailableIn (claimAll now userId raffleId numbers ts))
   = List.length numbers)%nat.
Proof.
  revert ts. induction numbers as [|n rest IH]; intros ts; [reflexivity|].
  simpl. destruct (findOneAndUpdate _ _ ts) as [ticket ts1].
  specialize (IH ts1).
  destruct (claimAll now userId raffleId rest ts1) as [[cl un] ts2].
  unfold claimedIn, unavailableIn in *. simpl in *.
  destruct ticket; simpl; lia.
Qed.

Lemma claimAll_all_claimed now userId raffleId numbers ts :
  unavailableIn (claimAll now userId raffleId numbers ts) = [] ->
  claimedIn (claimAll now userId raffleId numbers ts) = numbers.
Proof.
  revert ts. induction numbers as [|n rest IH]; intros ts; [reflexivity|].
  simpl. destruct (findOneAndUpdate _ _ ts) as [ticket ts1].
  specialize (IH ts1).
  destruct (claimAll now userId raffleId rest ts1) as [[cl un] ts2].
  unfold claimedIn, unavailableIn in *. simpl in *.
  destruct ticket; simpl; [|discriminate].
  intros H. now rewrite (IH H).
Qed.





(** X8. A create-and-pay request that names a payment method outside
    'Binance Pay', 'Pagomovil', 'Zelle', or that carries no proof file,
    never succeeds: it is answered 400 and nothing is written, whatever
    tickets the loop had claimed. *)
Theorem invalid_payment_reserves_nothing now req db :
  validMethod (PayReq.method req) = false \/ PayReq.file req = None ->
  statusCode (fst (createAndPay now req db)) = 400%nat
  /\ snd (createAndPay now req db) = db.
Proof.
  intros Hbad.
  remember (createAndPay now req db) as res eqn:R.
  unfold createAndPay, withTransaction, createAndPayBody in R.
  unfold bind at 1, get in R.
  destruct (findOne _ (users db)); [subst res; split; reflexivity|].
  destruct (findOne Raffle.active (raffles db)) as [activeRaffle|];
    [|subst res; split; reflexivity].
  unfold bind at 1, newObjectId in R. unfold bind at 1, setUsers in R.
  destruct (PayReq.selectedNumbers req) as [numbers|];
    [|subst res; split; reflexivity].
  unfold bind at 1 in R. rewrite reserveTickets_claimAll in R.
  simpl tickets in R. simpl nextId in R.
  destruct (unavailableIn _) as [|n un] eqn:E;
    [|subst res; split; reflexivity].
  simpl Nat.ltb in R. cbv iota in R.
  unfold bind at 1, newObjectId in R. simpl in R.
  replace (validPayment _) with false in R; [subst res; split; reflexivity|].
  symmetry. unfold validPayment. simpl.
  destruct Hbad as [-> | ->]; [reflexivity|].
  simpl. apply andb_false_r.
Qed.

Lemma invalid_payment_reserves_nothing_witness :
  let db := run [CreateRaffle (raffleOf 3)] emptyDB in
  let req := PayReq.mk "a@x" (Some [1; 2]) "Zelle" None in
  fst (createAndPay 0 req db) = mkResponse 400 "Payment validation failed"
  /\ snd (createAndPay 0 req db) = db.
Proof.
  intros db req.
  destruct (invalid_payment_reserves_nothing 0 req db) as [_ H];
    [right; reflexivity|].
  split; [reflexivity | exact H].
Defined.



Lemma claimAll_claimed_reserved now userId raffleId numbers ts n :
  In n (claimedIn (claimAll now userId raffleId numbers ts)) ->
  exists t, In t (snd (claimAll now userId raffleId numbers ts))
            /\ ticketKey t = (raffleId, n)
            /\ Ticket.status t = Ticket.reserved
            /\ Ticket.reservedAt t = Some now
            /\ Ticket.userId t = Some userId.
Proof.
  revert ts. induction numbers as [|m rest IH]; intros ts Hn;
    [contradiction|].
  simpl in *.
  pose proof (findOneAndUpdate_result_In (claimable m raffleId)
                (setReserved now userId) ts) as Hres.
  pose proof (findOneAndUpdate_some (claimable m raffleId)
                (setReserved now userId) ts) as Hsome.
  destruct (findOneAndUpdate (claimable m raffleId) (setReserved now userId) ts)
    as [ticket ts1].
  simpl in Hres, Hsome.
  pose proof (claimAll_keeps now userId raffleId rest ts1) as Hkeep.
  specialize (IH ts1).
  destruct (claimAll now userId raffleId rest ts1) as [[cl un] ts2].
  unfold claimedIn in *. simpl in *.
  destruct ticket as [y|]; simpl in *; [|auto].
  destruct Hn as [<-|Hn]; [|auto].
  destruct (Hsome y eq_refl) as (x & _ & Hq & ->).
  exists (setReserved now userId x). split.
  - apply Hkeep; [now apply Hres | discriminate].
  - unfold claimable in Hq.
    apply andb_prop in Hq as [Hq Hr]. apply andb_prop in Hq as [Hk _].
    apply Z.eqb_eq in Hk. apply Nat.eqb_eq in Hr.
    unfold ticketKey. simpl. rewrite Hk, Hr. auto.
Qed.

Lemma claimAll_frame now userId raffleId numbers ts t :
  In t ts ->
  (forall n, In n numbers -> claimable n raffleId t = false) ->
  In t (snd (claimAll now userId raffleId numbers ts)).
Proof.
  revert ts. induction numbers as [|m rest IH]; intros ts Hin Hc; [exact Hin|].
  simpl.
  assert (Hk : In t (snd (findOneAndUpdate (claimable m raffleId)
                            (setReserved now userId) ts))).
  { apply findOneAndUpdate_keeps; [exact Hin|]. apply Hc. now left. }
  destruct (findOneAndUpdate _ _ ts) as [ticket ts1]. simpl in Hk.
  assert (Hc' : forall n, In n rest -> claimable n raffleId t = false)
    by (intros n Hn; apply Hc; now right).
  specialize (IH ts1 Hk Hc').
  destruct (claimAll now userId raffleId rest ts1) as [[cl un] ts2].
  destruct ticket; exact IH.
Qed.

Lemma active_raffle_by_id ops activeRaffle :
  findOne Raffle.active (raffles (run ops emptyDB)) = Some activeRaffle ->
  Raffle_findById (Raffle._id activeRaffle) (run ops emptyDB)
  = Some activeRaffle.
Proof.
  intros Hr. destruct (reached_invariants ops) as [W _].
  apply findOne_some in Hr as [Hin _].
  destruct (findOne_exists
              (fun r => (Raffle._id r =? Raffle._id activeRaffle)%nat)
              (raffles (run ops emptyDB)) activeRaffle Hin
              (Nat.eqb_refl _)) as [r Hf].
  unfold Raffle_findById. rewrite Hf. f_equal.
  apply findOne_some in Hf as [Hin' Hq]. apply Nat.eqb_eq in Hq.
  apply (NoDup_map_eq Raffle._id (raffles (run ops emptyDB)));
    auto. apply W.
Qed.

(** X10. What a successful create-and-pay leaves, in a state the server
    reaches: one new user with the request's email; one new Pending
    payment of that user on the active raffle, holding the requested
    numbers; for each requested number the raffle's ticket reserved for
    that user at the time of the request; every ticket that is not an
    available ticket of the active raffle with a requested number as it
    was; and [reservedTickets] of the active raffle raised by the length
    of the request. *)
Theorem reservation_postcondition ops now req activeRaffle numbers :
  let db := run ops emptyDB in
  let after := snd (createAndPay now req db) in
  let buyer := nextId db in
  findOne Raffle.active (raffles db) = Some activeRaffle ->
  PayReq.selectedNumbers req = Some numbers ->
  statusCode (fst (createAndPay now req db)) = 201%nat ->
  users after = (users db ++ [User.mk buyer (PayReq.email req)])%list
  /\ (exists payment,
        payments after = (payments db ++ [payment])%list
        /\ Payment.user payment = buyer
        /\ Payment.raffle payment = Raffle._id activeRaffle
        /\ Payment.selectedNumbers payment = numbers
        /\ Payment.status payment = Payment.Pending)
  /\ (forall n, In n numbers ->
        In (Ticket.mk n (Raffle._id activeRaffle) Ticket.reserved
                      (Some now) (Some buyer))
           (tickets after))
  /\ (forall t, In t (tickets db) ->
        Ticket.raffleId t <> Raffle._id activeRaffle
        \/ ~ In (Ticket.ticketNumber t) numbers
        \/ Ticket.status t <> Ticket.available ->
        In t (tickets after))
  /\ Raffle_findById (Raffle._id activeRaffle) after
     = Some (Raffle.mk (Raffle._id activeRaffle)
                       (Raffle.totalTickets activeRaffle)
                       (Raffle.soldTickets activeRaffle)
                       (Raffle.reservedTickets activeRaffle
                        + Z.of_nat (List.length numbers))
                       (Raffle.active activeRaffle)).
Proof.
  intros db after buyer Hr Hn Hok. subst after buyer.
  pose proof (active_raffle_by_id ops activeRaffle Hr) as Hbyid.
  fold db in Hbyid.
  destruct (createAndPay_writes now req db)
    as [[H400 _]|(r & ns & Hr' & Hn' & _ & Hus & Hpay & Ht & Hun & Hraf)];
    [congruence|].
  assert (r = activeRaffle) by congruence. subst r.
  assert (ns = numbers) by congruence. subst ns.
  split; [exact Hus|]. split; [|split; [|split]].
  - eexists. split; [exact Hpay|]. simpl. auto.
  - intros n Hin. rewrite Ht.
    rewrite <- (claimAll_all_claimed _ _ _ _ _ Hun) in Hin.
    apply claimAll_claimed_reserved in Hin as (t & Hin & Hk & Hs & Hd & Ho).
    destruct t as [k rid s d o]. unfold ticketKey in Hk. simpl in *.
    injection Hk as -> ->. now subst.
  - intros t Hin Hnot. rewrite Ht. apply claimAll_frame; [exact Hin|].
    intros n Hn0. unfold claimable.
    destruct (Ticket.ticketNumber t =? n) eqn:Ek; [|reflexivity].
    destruct (Ticket.raffleId t =? Raffle._id activeRaffle)%nat eqn:Er;
      [|now rewrite andb_false_r].
    apply Z.eqb_eq in Ek. apply Nat.eqb_eq in Er.
    destruct (Ticket.status t) eqn:Es; simpl; try reflexivity.
    exfalso. destruct Hnot as [H|[H|H]]; [tauto | | tauto].
    apply H. now rewrite Ek.
  - unfold Raffle_findById at 1. rewrite Hraf.
    rewrite (Raffle_findById_updateOne _ db activeRaffle); auto.
Qed.

Lemma reservation_postcondition_witness :
  let db := run [CreateRaffle (raffleOf 3)] emptyDB in
  let after := snd (createAndPay 0 (purchase "a@x" [1; 2]) db) in
  In (Ticket.mk 2 1%nat Ticket.reserved (Some 0) (Some 2%nat)) (tickets after)
  /\ Raffle_findById 1%nat after = Some (Raffle.mk 1%nat 3 0 2 true).
Proof.
  intros db after.
  destruct (reservation_postcondition [CreateRaffle (raffleOf 3)] 0
              (purchase "a@x" [1; 2]) (Raffle.mk 1%nat 3 0 0 true) [1; 2]
              eq_refl eq_refl eq_refl) as (_ & _ & Ht & _ & Hr).
  split; [apply Ht; simpl; auto | exact Hr].
Defined.

(** ** Counters that follow the tickets *)

Lemma updateOne_unique {A} (f : A -> ObjectId) (k : ObjectId) u c y :
  NoDup (map f c) ->
  In y (updateOne (fun x => (f x =? k)%nat) u c) ->
  (In y c /\ f y <> k) \/ (exists x, In x c /\ f x = k /\ y = u x).
Proof.
  unfold updateOne. induction c as [|x c IH]; simpl; [contradiction|].
  intros Hnd. inversion Hnd as [|? ? Hx Hc]; subst.
  destruct (f x =? k)%nat eqn:E.
  - apply Nat.eqb_eq in E. simpl. intros [<-|Hy].
    + right. exists x. auto.
    + left. split; [auto|]. intros Hk. apply Hx. rewrite E, <- Hk.
      now apply in_map.
  - apply Nat.eqb_neq in E.
    destruct (findOneAndUpdate (fun x => (f x =? k)%nat) u c) as [r c'].
    simpl in *. intros [<-|Hy]; [auto|].
    destruct (IH Hc Hy) as [[H1 H2]|(z & Hz & Hk & ->)]; [auto|].
    right. exists z. auto.
Qed.

Lemma statusCount_inStatus s id db :
  statusCount s id db = Z.of_nat (countDocuments (inStatus s id) (tickets db)).
Proof. reflexivity. Qed.

Lemma claim_counts now userId raffleId n (id : ObjectId) ts :
  let r := findOneAndUpdate (claimable n raffleId) (setReserved now userId) ts in
  countDocuments (inStatus Ticket.sold id) (snd r)
  = countDocuments (inStatus Ticket.sold id) ts
  /\ countDocuments (inStatus Ticket.reserved id) (snd r)
     = (countDocuments (inStatus Ticket.reserved id) ts
        + match fst r with
          | Some _ => if (id =? raffleId)%nat then 1 else 0
          | None => 0
          end)%nat.
Proof.
  intros r. subst r. unfold countDocuments, inStatus.
  induction ts as [|t ts IH]; simpl; [auto|].
  destruct (claimable n raffleId t) eqn:Hc.
  - unfold claimable in Hc.
    apply andb_prop in Hc as [Hc Hr]. apply andb_prop in Hc as [_ Hs].
    apply Nat.eqb_eq in Hr.
    destruct (Ticket.status t) eqn:Es; simpl in Hs; try discriminate.
    simpl. rewrite Hr, (Nat.eqb_sym raffleId id).
    destruct (id =? raffleId)%nat; simpl; lia.
  - destruct (findOneAndUpdate (claimable n raffleId)
                (setReserved now userId) ts) as [r ts'].
    simpl in *. destruct IH as [IH1 IH2].
    destruct (Ticket.raffleId t =? id)%nat; simpl; [|auto].
    destruct (Ticket.status t); simpl; rewrite ?IH1, ?IH2; auto.
Qed.

Lemma claimAll_counts now userId raffleId numbers (id : ObjectId) ts :
  let a := claimAll now userId raffleId numbers ts in
  countDocuments (inStatus Ticket.sold id) (snd a)
  = countDocuments (inStatus Ticket.sold id) ts
  /\ countDocuments (inStatus Ticket.reserved id) (snd a)
     = (countDocuments (inStatus Ticket.reserved id) ts
        + if (id =? raffleId)%nat then List.length (claimedIn a) else 0)%nat.
Proof.
  revert ts. induction numbers as [|n rest IH]; intros ts a; subst a.
  - simpl. split; [reflexivity|]. destruct (id =? raffleId)%nat; simpl; lia.
  - cbn [claimAll].
    pose proof (claim_counts now userId raffleId n id ts) as [H1 H2].
    destruct (findOneAndUpdate (claimable n raffleId)
                (setReserved now userId) ts) as [ticket ts1].
    cbn [fst snd] in H1, H2. destruct (IH ts1) as [IH1 IH2].
    destruct (claimAll now userId raffleId rest ts1) as [[cl un] ts2].
    unfold claimedIn in *. cbn [fst snd] in *.
    destruct ticket; cbn [fst snd]; rewrite IH1, IH2, H1, H2;
      (split; [reflexivity|]);
      destruct (id =? raffleId)%nat; cbn [List.length]; lia.
Qed.

(** X11. The reservation keeps the counters true: in a state the server
    reaches in which every raffle's [reservedTickets] and [soldTickets]
    equal its numbers of reserved and sold tickets, they still do after
    any create-and-pay request, successful or not. *)
Theorem reservation_keeps_counters ops now req :
  let db := run ops emptyDB in
  countersConsistent db = true ->
  countersConsistent (snd (createAndPay now req db)) = true.
Proof.
  intros db Hc.
  destruct (reached_invariants ops) as [W _]. fold db in W.
  destruct (createAndPay_writes now req db)
    as [[_ ->]|(a & ns & Ha & _ & _ & _ & _ & Ht & Hun & Hraf)];
    [exact Hc|].
  unfold countersConsistent in *. rewrite forallb_forall in *.
  intros r Hr. rewrite Hraf in Hr. rewrite !statusCount_inStatus, Ht.
  destruct (claimAll_counts now (nextId db) (Raffle._id a) ns
              (Raffle._id r) (tickets db)) as [Hs Hres].
  rewrite Hs, Hres. rewrite (claimAll_all_claimed _ _ _ _ _ Hun).
  apply findOne_some in Ha as [Hain _].
  apply updateOne_unique in Hr as [[Hin Hne]|(x & Hx & Hid & ->)];
    [| |apply W].
  - specialize (Hc r Hin). rewrite !statusCount_inStatus in Hc.
    apply Nat.eqb_neq in Hne. rewrite Hne, Nat.add_0_r. exact Hc.
  - assert (x = a).
    { apply (NoDup_map_eq Raffle._id (raffles db)); auto. apply W. }
    subst x. specialize (Hc a Hain). rewrite !statusCount_inStatus in Hc.
    apply andb_prop in Hc as [Hc1 Hc2].
    apply Z.eqb_eq in Hc1, Hc2. simpl.
    rewrite Nat.eqb_refl. apply andb_true_intro. split; apply Z.eqb_eq; lia.
Qed.

Lemma reservation_keeps_counters_witness :
  countersConsistent
    (snd (createAndPay hour (purchase "b@x" [3])
                       (run oneReservation emptyDB))) = true.
Proof.
  apply (reservation_keeps_counters oneReservation hour (purchase "b@x" [3])).
  reflexivity.
Defined.

Lemma settle_counts (numbers : list Z) (id : ObjectId) ts :
  let hit := countDocuments
               (fun t => (Ticket.raffleId t =? id)%nat
                         && reservedAmong numbers t) ts in
  (countDocuments (inStatus Ticket.reserved id)
     (updateMany (reservedAmong numbers) setSold ts) + hit
   = countDocuments (inStatus Ticket.reserved id) ts)%nat
  /\ countDocuments (inStatus Ticket.sold id)
       (updateMany (reservedAmong numbers) setSold ts)
     = (countDocuments (inStatus Ticket.sold id) ts + hit)%nat
  /\ (countDocuments (inStatus Ticket.reserved id)
        (updateMany (reservedAmong numbers) setAvailable ts) + hit
      = countDocuments (inStatus Ticket.reserved id) ts)%nat
  /\ countDocuments (inStatus Ticket.sold id)
       (updateMany (reservedAmong numbers) setAvailable ts)
     = countDocuments (inStatus Ticket.sold id) ts.
Proof.
  unfold countDocuments, inStatus, updateMany.
  induction ts as [|t ts IH]; simpl; [auto|].
  destruct IH as (IH1 & IH2 & IH3 & IH4).
  destruct (reservedAmong numbers t) eqn:Hq.
  - apply reservedAmong_true in Hq as [Hs _]. simpl. rewrite Hs.
    destruct (Ticket.raffleId t =? id)%nat; simpl; repeat split; lia.
  - destruct (Ticket.raffleId t =? id)%nat; simpl; [|auto].
    destruct (Ticket.status t); simpl; repeat split; lia.
Qed.

Lemma foreign_hits_none (numbers : list Z) (raffleId id : ObjectId) ts :
  (forall t, In t ts -> Ticket.status t = Ticket.reserved ->
             In (Ticket.ticketNumber t) numbers ->
             Ticket.raffleId t = raffleId) ->
  id <> raffleId ->
  countDocuments
    (fun t => (Ticket.raffleId t =? id)%nat && reservedAmong numbers t) ts
  = 0%nat.
Proof.
  intros Hown Hne. unfold countDocuments. rewrite filter_none; [reflexivity|].
  intros t Ht.
  destruct (reservedAmong numbers t) eqn:Hq; [|apply andb_false_r].
  apply reservedAmong_true in Hq as [Hs Hn].
  rewrite andb_true_r. apply Nat.eqb_neq.
  rewrite (Hown t Ht Hs Hn). auto.
Qed.

(** X12. Settling a payment whose reservation is intact keeps the
    counters true.  In a state the server reaches with true counters, if
    the reserved tickets that carry the payment's numbers all belong to
    the payment's raffle and are as many as the numbers, then the
    counters are still true after confirming the payment, and after
    rejecting it. *)
Theorem settlement_keeps_counters ops id p :
  let db := run ops emptyDB in
  let numbers := Payment.selectedNumbers p in
  countersConsistent db = true ->
  Payment_findById id db = Some p ->
  (forall t, In t (tickets db) -> Ticket.status t = Ticket.reserved ->
             In (Ticket.ticketNumber t) numbers ->
             Ticket.raffleId t = Payment.raffle p) ->
  countDocuments
    (fun t => (Ticket.raffleId t =? Payment.raffle p)%nat
              && reservedAmong numbers t) (tickets db)
  = List.length numbers ->
  countersConsistent (snd (confirm id db)) = true
  /\ countersConsistent (snd (reject id db)) = true.
Proof.
  intros db numbers Hc Hp Hown Hall.
  destruct (reached_invariants ops) as [W _]. fold db in W.
  destruct (Payment.status p) eqn:Hs.
  2,3: destruct (confirm_refused id db) as [_ ->];
       [unfold paymentStatus; rewrite Hp; simpl; congruence|];
       destruct (reject_refused id db) as [_ ->];
       [unfold paymentStatus; rewrite Hp; simpl; congruence|];
       auto.
  destruct (confirm_pending id db p Hp Hs) as (_ & _ & Htc & _ & Hrc).
  destruct (reject_pending id db p Hp Hs) as (_ & _ & Htr & _ & Hrr).
  fold numbers in Htc, Htr, Hrc, Hrr.
  unfold countersConsistent in *. rewrite !forallb_forall in *.
  assert (Hother : forall r, In r (raffles db) ->
                     Raffle._id r <> Payment.raffle p ->
                     forall ts',
                       ts' = updateMany (reservedAmong numbers) setSold
                                        (tickets db)
                       \/ ts' = updateMany (reservedAmong numbers)
                                           setAvailable (tickets db) ->
                       (Raffle.reservedTickets r
                        =? Z.of_nat (countDocuments
                                       (inStatus Ticket.reserved (Raffle._id r))
                                       ts'))
                       && (Raffle.soldTickets r
                           =? Z.of_nat (countDocuments
                                          (inStatus Ticket.sold (Raffle._id r))
                                          ts')) = true).
  { intros r Hin Hne ts' Hts. specialize (Hc r Hin).
    rewrite !statusCount_inStatus in Hc.
    destruct (settle_counts numbers (Raffle._id r) (tickets db))
      as (S1 & S2 & S3 & S4).
    rewrite (foreign_hits_none numbers (Payment.raffle p) (Raffle._id r)
               (tickets db) Hown Hne) in S1, S2, S3.
    rewrite Nat.add_0_r in S1, S2, S3.
    destruct Hts as [-> | ->]; [now rewrite S1, S2 | now rewrite S3, S4]. }
  destruct (settle_counts numbers (Payment.raffle p) (tickets db))
    as (S1 & S2 & S3 & S4).
  rewrite Hall in S1, S2, S3.
  split; intros r Hr; rewrite !statusCount_inStatus.
  - rewrite Htc. rewrite Hrc in Hr.
    destruct (Raffle_findById (Payment.raffle p) db) as [raffle|] eqn:Hf.
    + unfold Raffle_findById in Hf. apply findOne_some in Hf as [Hfin Hfid].
      apply Nat.eqb_eq in Hfid.
      apply updateOne_unique in Hr as [[Hin Hne]|(x & Hx & Hid & ->)];
        [now apply Hother; auto | | apply W].
      assert (x = raffle).
      { apply (NoDup_map_eq Raffle._id (raffles db)); auto;
          [apply W | congruence]. }
      subst x. specialize (Hc raffle Hfin).
      rewrite !statusCount_inStatus, Hfid in Hc.
      apply andb_prop in Hc as [Hc1 Hc2]. apply Z.eqb_eq in Hc1, Hc2.
      simpl. rewrite Hfid.
      apply andb_true_intro. split; apply Z.eqb_eq; lia.
    + apply Hother; auto. intros Heq.
      unfold Raffle_findById in Hf.
      pose proof (findOne_none _ _ Hf r Hr) as Hq. simpl in Hq.
      apply Nat.eqb_neq in Hq. auto.
  - rewrite Htr. rewrite Hrr in Hr.
    destruct (Raffle_findById (Payment.raffle p) db) as [raffle|] eqn:Hf.
    + unfold Raffle_findById in Hf. apply findOne_some in Hf as [Hfin Hfid].
      apply Nat.eqb_eq in Hfid.
      apply updateOne_unique in Hr as [[Hin Hne]|(x & Hx & Hid & ->)];
        [now apply Hother; auto | | apply W].
      assert (x = raffle).
      { apply (NoDup_map_eq Raffle._id (raffles db)); auto;
          [apply W | congruence]. }
      subst x. specialize (Hc raffle Hfin).
      rewrite !statusCount_inStatus, Hfid in Hc.
      apply andb_prop in Hc as [Hc1 Hc2]. apply Z.eqb_eq in Hc1, Hc2.
      simpl. rewrite Hfid.
      apply andb_true_intro. split; apply Z.eqb_eq; lia.
    + apply Hother; auto. intros Heq.
      unfold Raffle_findById in Hf.
      pose proof (findOne_none _ _ Hf r Hr) as Hq. simpl in Hq.
      apply Nat.eqb_neq in Hq. auto.
Qed.

Lemma settlement_keeps_counters_witness :
  let db := run oneReservation emptyDB in
  countersConsistent (snd (confirm 3%nat db)) = true
  /\ countersConsistent (snd (reject 3%nat db)) = true.
Proof.
  intros db.
  apply (settlement_keeps_counters oneReservation 3%nat
           (Payment.mk 3%nat 2%nat 1%nat [1; 2] "Zelle"
                       "/uploads/proofs/proof.png" Payment.Pending));
    try reflexivity.
  intros t Hin _ _. simpl in Hin.
  destruct Hin as [<-|[<-|[<-|[]]]]; reflexivity.
Defined.

(** ** The release job *)

Lemma expiredAt_spec cutoff t :
  expiredAt cutoff t = true
  <-> Ticket.status t = Ticket.reserved
      /\ exists d, Ticket.reservedAt t = Some d /\ d < cutoff.
Proof.
  unfold expiredAt. split.
  - intros H. apply andb_prop in H as [Hs Hd].
    split; [destruct (Ticket.status t); simpl in Hs; congruence|].
    destruct (Ticket.reservedAt t) as [d|]; [|discriminate].
    exists d. split; [reflexivity | now apply Z.ltb_lt].
  - intros [Hs (d & Hd & Hlt)]. rewrite Hs, Hd. simpl. now apply Z.ltb_lt.
Qed.

(** X13. After one run of the release job no reservation older than 24
    hours is left, and a second run at the same time changes nothing. *)
Theorem release_job_clears_expired now db :
  expiredTickets now (ticketReleaseJob now db) = []
  /\ ticketReleaseJob now (ticketReleaseJob now db) = ticketReleaseJob now db.
Proof.
  assert (H : expiredTickets now (ticketReleaseJob now db) = []).
  { unfold ticketReleaseJob.
    destruct (expiredTickets now db) as [|e l] eqn:E; [exact E|].
    simpl Nat.ltb. cbv iota. rewrite <- E.
    unfold expiredTickets at 1, find, releaseNumbers, withTickets. simpl.
    apply filter_none. intros t' Ht'.
    apply updateMany_In in Ht' as (t & Ht & ->).
    destruct (existsb _ _) eqn:Hhit.
    - unfold expiredAt. reflexivity.
    - destruct (expiredAt (now - TTL) t) eqn:Hex; [|reflexivity].
      exfalso. assert (Hin : In t (expiredTickets now db)).
      { unfold expiredTickets, find. apply filter_In. auto. }
      apply (in_map Ticket.ticketNumber) in Hin.
      assert (Htrue : existsb (Z.eqb (Ticket.ticketNumber t))
                        (map Ticket.ticketNumber (expiredTickets now db))
                      = true).
      { apply existsb_exists. exists (Ticket.ticketNumber t).
        split; [exact Hin | apply Z.eqb_refl]. }
      congruence. }
  split; [exact H|].
  unfold ticketReleaseJob at 1. now rewrite H.
Qed.

(** X14. What one run of the release job writes.  A ticket is changed
    only if some reservation made more than 86,400,000 ms before the run
    carries its number; a changed ticket becomes available with owner and
    date cleared; no ticket is added or removed; users, raffles (and so
    their counters) and payments are as before. *)
Theorem release_job_effect now db :
  let after := ticketReleaseJob now db in
  let stale n :=
    exists e d, In e (tickets db)
                /\ Ticket.ticketNumber e = n
                /\ Ticket.status e = Ticket.reserved
                /\ Ticket.reservedAt e = Some d
                /\ d + 86400000 < now in
  (forall t, In t (tickets db) ->
     (stale (Ticket.ticketNumber t) ->
      In (Ticket.mk (Ticket.ticketNumber t) (Ticket.raffleId t)
                    Ticket.available None None) (tickets after))
     /\ (~ stale (Ticket.ticketNumber t) -> In t (tickets after)))
  /\ map ticketKey (tickets after) = map ticketKey (tickets db)
  /\ users after = users db
  /\ raffles after = raffles db
  /\ payments after = payments db.
Proof.
  intros after stale.
  assert (Hstale : forall n,
            stale n
            <-> In n (map Ticket.ticketNumber (expiredTickets now db))).
  { intros n. unfold stale, expiredTickets, find. rewrite in_map_iff. split.
    - intros (e & d & Hin & Hn & Hs & Hd & Hlt). exists e. split; [exact Hn|].
      apply filter_In. split; [exact Hin|].
      apply expiredAt_spec. split; [exact Hs|]. exists d.
      split; [exact Hd | unfold TTL; lia].
    - intros (e & Hn & He). apply filter_In in He as [Hin Hex].
      apply expiredAt_spec in Hex as [Hs (d & Hd & Hlt)].
      exists e, d. repeat split; auto. unfold TTL in Hlt. lia. }
  assert (Hrest : map ticketKey (tickets after) = map ticketKey (tickets db)
                  /\ users after = users db /\ raffles after = raffles db
                  /\ payments after = payments db).
  { subst after. unfold ticketReleaseJob.
    destruct (0 <? _)%nat; [|auto]. simpl. split; [|auto].
    now apply map_updateMany. }
  split; [|exact Hrest].
  intros t Hin. subst after. unfold ticketReleaseJob. split.
  - intros Hst. apply Hstale in Hst.
    destruct (0 <? _)%nat eqn:Hlen.
    + apply (releaseNumbers_resets _ db t Hin Hst).
    + apply Nat.ltb_ge in Hlen.
      destruct (expiredTickets now db); [contradiction | simpl in Hlen; lia].
  - intros Hst. destruct (0 <? _)%nat; [|exact Hin].
    unfold releaseNumbers, withTickets. cbn [tickets].
    apply updateMany_miss; [exact Hin|].
    destruct (existsb _ _) eqn:Hhit; [|reflexivity].
    exfalso. apply Hst, Hstale.
    apply existsb_exists in Hhit as (n & Hn & He).
    apply Z.eqb_eq in He. now rewrite He.
Qed.

Lemma release_job_effect_witness :
  let db := run oneReservation emptyDB in
  In (Ticket.mk 1 1%nat Ticket.available None None)
     (tickets (ticketReleaseJob (24 * hour + 1) db))
  /\ In (Ticket.mk 1 1%nat Ticket.reserved (Some 0) (Some 2%nat))
        (tickets (ticketReleaseJob (24 * hour) db)).
Proof.
  intros db.
  destruct (release_job_effect (24 * hour + 1) db) as [H1 _].
  destruct (release_job_effect (24 * hour) db) as [H2 _].
  split.
  - apply (H1 (Ticket.mk 1 1%nat Ticket.reserved (Some 0) (Some 2%nat)));
      [simpl; auto|].
    exists (Ticket.mk 1 1%nat Ticket.reserved (Some 0) (Some 2%nat)), 0.
    repeat split; try reflexivity. simpl. auto.
  - apply (H2 (Ticket.mk 1 1%nat Ticket.reserved (Some 0) (Some 2%nat)));
      [simpl; auto|].
    intros (e & d & Hin & _ & _ & Hd & Hlt). simpl in Hin.
    destruct Hin as [<-|[<-|[<-|[]]]]; simpl in Hd; try discriminate;
      injection Hd as <-; vm_compute in Hlt; discriminate.
Defined.

(** ** The raffle routes *)














(** ** What the raffle card shows *)




(** ** The socket middleware *)

(** X19. The Socket.IO middleware outside development lets a connection
    in exactly when the handshake carries a token that verifies; in
    development it lets every connection in; and in either mode a socket
    joins 'admin-room' only with a verified token whose payload says
    isAdmin. *)
Theorem socket_auth_policy verify h :
  ((exists user adminRoom,
      SocketAuth.authenticate false verify h
      = SocketAuth.Accepted user adminRoom)
   <-> exists t decoded,
         SocketAuth.token h = Some t /\ verify t = Some decoded)
  /\ (exists user adminRoom,
        SocketAuth.authenticate true verify h
        = SocketAuth.Accepted user adminRoom)
  /\ forall development user,
       SocketAuth.authenticate development verify h
       = SocketAuth.Accepted user true ->
       exists t decoded,
         SocketAuth.token h = Some t /\ verify t = Some decoded
         /\ SocketAuth.isAdmin decoded = true /\ user = Some decoded.
Proof.
  unfold SocketAuth.authenticate. split; [split|split].
  - intros (u & a & H).
    destruct (SocketAuth.token h) as [t|]; [|discriminate].
    destruct (verify t) as [d|] eqn:E; [|discriminate].
    exists t, d. auto.
  - intros (t & d & -> & ->). eauto.
  - destruct (SocketAuth.token h) as [t|]; [|eauto].
    destruct (verify t); eauto.
  - intros development user H.
    destruct (SocketAuth.token h) as [t|];
      [|destruct development; discriminate].
    destruct (verify t) as [d|] eqn:E;
      [|destruct development; discriminate].
    injection H as <- Ha. exists t, d. auto.
Qed.

Lemma socket_auth_policy_witness :
  let verify := fun t : string =>
    if (t =? "good")%string
    then Some (SocketAuth.mkDecoded 7%nat true) else None in
  exists user adminRoom,
    SocketAuth.authenticate false verify
      (SocketAuth.mkHandshake (Some "") None (Some "good"))
    = SocketAuth.Accepted user adminRoom.
Proof.
  intros verify.
  destruct (socket_auth_policy verify
              (SocketAuth.mkHandshake (Some "") None (Some "good")))
    as ([_ H] & _ & _).
  apply H. exists "good", (SocketAuth.mkDecoded 7%nat true).
  split; reflexivity.
Defined.

(** ** The request interceptor *)

Lemma hex_digit_cases c :
  Api.isHexDigit c = true ->
  In c (list_ascii_of_string "0123456789abcdef").
Proof.
  unfold Api.isHexDigit. intros H. apply existsb_exists in H as (x & Hx & He).
  apply Ascii.eqb_eq in He. now subst.
Qed.

Lemma prefix_after {s1 s2 : string} p :
  String.prefix (p ++ s1) (p ++ s2) = String.prefix s1 s2.
Proof.
  induction p as [|a p IH]; simpl; [reflexivity|].
  destruct (Ascii.ascii_dec a a); [exact IH | contradiction].
Qed.

(** X20. The request interceptor of the API module never sets the
    Authorization header on the calls that fetch the pending payments,
    confirm or reject a payment, or update or delete a raffle, whatever
    the stored token and whatever hexadecimal id they carry; of the admin
    calls of the module only createRaffle gets the header, when a token
    is stored. *)
Theorem interceptor_skips_admin_calls token id :
  Api.isHex id = true ->
  Api.authorizationHeader token Api.getPendingPaymentsUrl = None
  /\ Api.authorizationHeader token (Api.confirmPaymentUrl id) = None
  /\ Api.authorizationHeader token (Api.rejectPaymentUrl id) = None
  /\ Api.authorizationHeader token (Api.updateRaffleUrl id) = None
  /\ Api.authorizationHeader token (Api.deleteRaffleUrl id) = None
  /\ Api.authorizationHeader token Api.createRaffleUrl
     = match token with
       | Some t => if (t =? "")%string then None else Some ("Bearer " ++ t)
       | None => None
       end.
Proof.
  intros Hhex.
  assert (Hpay : forall tail,
            tail = "/confirm" \/ tail = "/reject" ->
            Api.requiresAuth ("/payments/" ++ id ++ tail) = false).
  { intros tail Htail. destruct id as [|c rest].
    - destruct Htail as [->| ->]; reflexivity.
    - simpl in Hhex. apply andb_prop in Hhex as [H1 _].
      apply hex_digit_cases in H1. simpl in H1.
      repeat (destruct H1 as [<-|H1]; [reflexivity|]). contradiction. }
  assert (Hraffle : Api.requiresAuth ("/raffle/" ++ id) = false).
  { unfold Api.requiresAuth. cbn [existsb Api.authRequiredEndpoints].
    change "/auth/protected-route" with ("/" ++ "auth/protected-route").
    change "/payments/protected-route"
      with ("/" ++ "payments/protected-route").
    change "/raffle/create" with ("/raffle/" ++ "create").
    change "/raffle/update" with ("/raffle/" ++ "update").
    change "/raffle/delete" with ("/raffle/" ++ "delete").
    change ("/raffle/" ++ id) with ("/" ++ ("raffle/" ++ id)) at 1 2.
    rewrite !prefix_after. simpl (String.prefix _ ("raffle/" ++ id)).
    destruct id as [|c1 id1]; [reflexivity|].
    simpl in Hhex. apply andb_prop in Hhex as [H1 Hhex].
    apply hex_digit_cases in H1.
    destruct id1 as [|c2 id2].
    { simpl in H1.
      repeat (destruct H1 as [<-|H1]; [reflexivity|]). contradiction. }
    simpl in Hhex. apply andb_prop in Hhex as [H2 Hhex].
    apply hex_digit_cases in H2.
    destruct id2 as [|c3 id3].
    { simpl in H1, H2.
      repeat (destruct H1 as [<-|H1];
              [repeat (destruct H2 as [<-|H2]; [reflexivity|]);
               contradiction|]).
      contradiction. }
    simpl in Hhex. apply andb_prop in Hhex as [H3 _].
    apply hex_digit_cases in H3.
    simpl in H1, H2, H3.
    repeat (destruct H1 as [<-|H1];
            [repeat (destruct H2 as [<-|H2];
                     [repeat (destruct H3 as [<-|H3]; [reflexivity|]);
                      contradiction|]);
             contradiction|]).
    contradiction. }
  unfold Api.authorizationHeader, Api.confirmPaymentUrl, Api.rejectPaymentUrl,
    Api.updateRaffleUrl, Api.deleteRaffleUrl.
  rewrite (Hpay "/confirm"), (Hpay "/reject"), Hraffle by auto.
  destruct token as [t|]; [|repeat split].
  rewrite !andb_false_r.
  repeat split. destruct (t =? "")%string; reflexivity.
Qed.

Lemma interceptor_skips_admin_calls_witness :
  Api.authorizationHeader (Some "jwt")
    (Api.confirmPaymentUrl "65f0a1b2c3d4e5f60718293a") = None
  /\ Api.authorizationHeader (Some "jwt") Api.createRaffleUrl
     = Some "Bearer jwt".
Proof.
  destruct (interceptor_skips_admin_calls (Some "jwt")
              "65f0a1b2c3d4e5f60718293a" eq_refl)
    as (_ & H & _ & _ & _ & Hcreate).
  split; [exact H | exact Hcreate].
Defined.
